(** * Patient records screen: form validation, list filter and service calls

    A shallow embedding of the page component (state, [validateForm],
    [handleSubmit], [handleDelete], [fetchPatients], [filteredPatients]) and
    of the REST client it calls, followed by the properties of the
    specification proved about them.

    JavaScript strings are sequences of UTF-16 code units, so a string is a
    [list N]; [trim], [includes] and the regular-expression tests work on code
    units exactly as the engine does for patterns without the [u] flag. *)

From Stdlib Require Import NArith ZArith Ascii String List Bool Lia.
From stdpp Require Import base option list strings gmap.

Local Open Scope N_scope.

(** ** JavaScript strings *)

Abbreviation jsstring := (list N).

(** A literal of the source, as code units. *)
Definition js (s : string) : jsstring :=
  List.map N_of_ascii (list_ascii_of_string s).
Arguments js s%_string.

(** ECMAScript WhiteSpace and LineTerminator code points: the characters
    removed by [String.prototype.trim] and matched by the class [\s]. *)
Definition is_whitespace (c : N) : bool :=
  (c =? 9) || (c =? 10) || (c =? 11) || (c =? 12) || (c =? 13) || (c =? 32)
  || (c =? 160) || (c =? 5760) || ((8192 <=? c) && (c <=? 8202))
  || (c =? 8232) || (c =? 8233) || (c =? 8239) || (c =? 8287)
  || (c =? 12288) || (c =? 65279).

(** The class [[0-9]]. *)
Definition is_digit (c : N) : bool := (48 <=? c) && (c <=? 57).

Definition AT : N := 64.
Definition DOT : N := 46.

(** The class [[^\s@]]. *)
Definition not_space_at (c : N) : bool := negb (is_whitespace c || (c =? AT)).

Fixpoint trimStart (s : jsstring) : jsstring :=
  match s with
  | [] => []
  | c :: r => if is_whitespace c then trimStart r else s
  end.

Definition trimEnd (s : jsstring) : jsstring := rev (trimStart (rev s)).

(** [String.prototype.trim]. *)
Definition trim (s : jsstring) : jsstring := trimEnd (trimStart s).

Fixpoint startsWith (s k : jsstring) {struct k} : bool :=
  match k, s with
  | [], _ => true
  | _ :: _, [] => false
  | b :: k', a :: s' => (a =? b) && startsWith s' k'
  end.

(** [String.prototype.includes]: some position of [s] starts with [k]. *)
Fixpoint includes (s k : jsstring) : bool :=
  startsWith s k ||
  match s with
  | [] => false
  | _ :: s' => includes s' k
  end.

(** [Array.prototype.join] on an array of strings. *)
Fixpoint join (sep : jsstring) (l : list jsstring) : jsstring :=
  match l with
  | [] => []
  | [x] => x
  | x :: r => x ++ sep ++ join sep r
  end.

(** Truthiness of a string value: only the empty string is falsy. *)
Definition truthy (s : jsstring) : bool :=
  match s with [] => false | _ :: _ => true end.

(** ** Regular expressions

    The two patterns of the validator are anchored at both ends and use only
    classes, concatenation and [+]; a test is a whole-string match, decided
    here with derivatives. *)

Inductive regex : Type :=
| Void : regex
| Eps : regex
| Class (p : N -> bool) : regex
| Seq (r1 r2 : regex) : regex
| Alt (r1 r2 : regex) : regex
| Star (r : regex) : regex.

Definition Plus (r : regex) : regex := Seq r (Star r).

Fixpoint nullable (r : regex) : bool :=
  match r with
  | Void => false
  | Eps => true
  | Class _ => false
  | Seq r1 r2 => nullable r1 && nullable r2
  | Alt r1 r2 => nullable r1 || nullable r2
  | Star _ => true
  end.

Fixpoint deriv (c : N) (r : regex) : regex :=
  match r with
  | Void => Void
  | Eps => Void
  | Class p => if p c then Eps else Void
  | Seq r1 r2 =>
      if nullable r1 then Alt (Seq (deriv c r1) r2) (deriv c r2)
      else Seq (deriv c r1) r2
  | Alt r1 r2 => Alt (deriv c r1) (deriv c r2)
  | Star r1 => Seq (deriv c r1) (Star r1)
  end.

(** [/^r$/.test(s)]. *)
Fixpoint test (r : regex) (s : jsstring) : bool :=
  match s with
  | [] => nullable r
  | c :: s' => test (deriv c r) s'
  end.

(** [/^[0-9]+$/] *)
Definition nik_pattern : regex := Plus (Class is_digit).

(** [/^[^\s@]+@[^\s@]+\.[^\s@]+$/] *)
Definition email_pattern : regex :=
  Seq (Plus (Class not_space_at))
   (Seq (Class (N.eqb AT))
     (Seq (Plus (Class not_space_at))
       (Seq (Class (N.eqb DOT))
            (Plus (Class not_space_at))))).

(** The language of a pattern, read off its syntax. *)
Fixpoint lang (r : regex) (s : jsstring) : Prop :=
  match r with
  | Void => False
  | Eps => s = []
  | Class p => ∃ c, s = [c] ∧ p c = true
  | Seq r1 r2 => ∃ s1 s2, s = s1 ++ s2 ∧ lang r1 s1 ∧ lang r2 s2
  | Alt r1 r2 => lang r1 s ∨ lang r2 s
  | Star r1 => ∃ ss, s = concat ss ∧ Forall (lang r1) ss
  end.

(** ** Data model ([types/patient.ts], [lib/api.ts]) *)

Module Patient.
Record t : Type := mk {
  id : Z;
  nama : jsstring;
  nik : jsstring;
  tanggal_lahir : jsstring;
  jenis_kelamin : jsstring;
  alamat : jsstring;
  no_telepon : jsstring;
  email : option jsstring;
  golongan_darah : jsstring;
  created_at : jsstring;
  updated_at : jsstring
}.
End Patient.

Module PatientFormData.
Record t : Type := mk {
  nama : jsstring;
  nik : jsstring;
  tanggal_lahir : jsstring;
  jenis_kelamin : jsstring;
  alamat : jsstring;
  no_telepon : jsstring;
  email : jsstring;
  golongan_darah : jsstring
}.
End PatientFormData.

#[global] Instance Patient_eq_dec : EqDecision Patient.t.
Proof. solve_decision. Defined.

#[global] Instance PatientFormData_eq_dec : EqDecision PatientFormData.t.
Proof. solve_decision. Defined.

(** [FormErrors]: an object used as a map from field name to message. *)
Abbreviation FormErrors := (gmap string jsstring).

(** The error payload of the service, [ApiError]. *)
Module ApiError.
Record t : Type := mk {
  success : bool;
  statusCode : Z;
  message : jsstring;
  errors : option (list jsstring)
}.
End ApiError.

(** What an awaited call can throw: an axios error, with the response when
    the service answered, or any other exception. *)
Inductive JsError : Type :=
| AxiosError (response : option ApiError.t)
| OtherError.

(** The requests the client issues. *)
Inductive Call : Type :=
| GET_patients
| POST_patients (data : PatientFormData.t)
| PATCH_patients (id : Z) (data : PatientFormData.t)
| DELETE_patients (id : Z).

#[global] Instance Call_eq_dec : EqDecision Call.
Proof. solve_decision. Defined.

Inductive Reply (A : Type) : Type :=
| Fulfilled (a : A)
| Rejected (e : JsError).
Arguments Fulfilled {A} a.
Arguments Rejected {A} e.

(** The remote service: its answer to a request may depend on every request
    issued before it. *)
Record Service : Type := {
  on_getAll : list Call → Reply (list Patient.t);
  on_create : list Call → PatientFormData.t → Reply Patient.t;
  on_update : list Call → Z → PatientFormData.t → Reply Patient.t;
  on_delete : list Call → Z → Reply jsstring
}.

(** ** Component state *)

Definition initialFormData : PatientFormData.t :=
  PatientFormData.mk [] [] [] [] [] [] [] [].

Record State : Type := mkState {
  patients : list Patient.t;
  loading : bool;
  formData : PatientFormData.t;
  errors : FormErrors;
  editingId : option Z;
  showForm : bool;
  successMessage : jsstring;
  errorMessage : jsstring;
  searchKeyword : jsstring
}.

(** The state of the first render. *)
Definition initialState : State :=
  mkState [] true initialFormData ∅ None false [] [] [].

(** The component state together with the requests issued so far. *)
Record World : Type := mkWorld {
  ui : State;
  calls : list Call
}.

(** ** Handlers as computations: a state monad with exceptions *)

Inductive Completion (A : Type) : Type :=
| Normal (a : A)
| Throw (e : JsError).
Arguments Normal {A} a.
Arguments Throw {A} e.

Definition M (A : Type) : Type := World → Completion A * World.

Definition ret {A} (a : A) : M A := fun w => (Normal a, w).

Definition bind {A B} (m : M A) (k : A → M B) : M B :=
  fun w =>
    match m w with
    | (Normal a, w') => k a w'
    | (Throw e, w') => (Throw e, w')
    end.

(** [try { body } catch (error) { handler }] *)
Definition try_catch {A} (body : M A) (handler : JsError → M A) : M A :=
  fun w =>
    match body w with
    | (Normal a, w') => (Normal a, w')
    | (Throw e, w') => handler e w'
    end.

(** [try { body } finally { final }] *)
Definition try_finally {A} (body : M A) (final : M unit) : M A :=
  fun w =>
    match body w with
    | (c, w') =>
        match final w' with
        | (Normal _, w'') => (c, w'')
        | (Throw e, w'') => (Throw e, w'')
        end
    end.

Definition modify (f : State → State) : M unit :=
  fun w => (Normal tt, mkWorld (f (ui w)) (calls w)).

Declare Scope js_scope.
Delimit Scope js_scope with js.
Notation "x <- m ;; k" := (bind m (fun x => k))
  (at level 100, m at next level, right associativity) : js_scope.
Notation "m ;; k" := (bind m (fun _ => k))
  (at level 100, right associativity) : js_scope.

(** The [useState] setters. *)
Definition setPatients (v : list Patient.t) : M unit :=
  modify (fun s => mkState v (loading s) (formData s) (errors s)
    (editingId s) (showForm s) (successMessage s) (errorMessage s)
    (searchKeyword s)).
Definition setLoading (v : bool) : M unit :=
  modify (fun s => mkState (patients s) v (formData s) (errors s)
    (editingId s) (showForm s) (successMessage s) (errorMessage s)
    (searchKeyword s)).
Definition setFormData (v : PatientFormData.t) : M unit :=
  modify (fun s => mkState (patients s) (loading s) v (errors s)
    (editingId s) (showForm s) (successMessage s) (errorMessage s)
    (searchKeyword s)).
Definition setErrors (v : FormErrors) : M unit :=
  modify (fun s => mkState (patients s) (loading s) (formData s) v
    (editingId s) (showForm s) (successMessage s) (errorMessage s)
    (searchKeyword s)).
Definition setEditingId (v : option Z) : M unit :=
  modify (fun s => mkState (patients s) (loading s) (formData s) (errors s)
    v (showForm s) (successMessage s) (errorMessage s) (searchKeyword s)).
Definition setShowForm (v : bool) : M unit :=
  modify (fun s => mkState (patients s) (loading s) (formData s) (errors s)
    (editingId s) v (successMessage s) (errorMessage s) (searchKeyword s)).
Definition setSuccessMessage (v : jsstring) : M unit :=
  modify (fun s => mkState (patients s) (loading s) (formData s) (errors s)
    (editingId s) (showForm s) v (errorMessage s) (searchKeyword s)).
Definition setErrorMessage (v : jsstring) : M unit :=
  modify (fun s => mkState (patients s) (loading s) (formData s) (errors s)
    (editingId s) (showForm s) (successMessage s) v (searchKeyword s)).
Definition setSearchKeyword (v : jsstring) : M unit :=
  modify (fun s => mkState (patients s) (loading s) (formData s) (errors s)
    (editingId s) (showForm s) (successMessage s) (errorMessage s) v).

Local Open Scope js_scope.

(** ** The REST client ([lib/api.ts]) *)

Section Client.
Variable svc : Service.

(** One awaited request: it is recorded, and it returns the body of the
    response or throws the rejection. *)
Definition request {A} (c : Call) (reply : list Call → Reply A) : M A :=
  fun w =>
    (match reply (calls w) with
     | Fulfilled a => Normal a
     | Rejected e => Throw e
     end,
     mkWorld (ui w) (calls w ++ [c])).

Definition getAllPatients : M (list Patient.t) :=
  request GET_patients (on_getAll svc).

Definition createPatient (data : PatientFormData.t) : M Patient.t :=
  request (POST_patients data) (fun h => on_create svc h data).

Definition updatePatient (id : Z) (data : PatientFormData.t) : M Patient.t :=
  request (PATCH_patients id data) (fun h => on_update svc h id data).

Definition deletePatient (id : Z) : M jsstring :=
  request (DELETE_patients id) (fun h => on_delete svc h id).

(** ** The page component *)

Definition fetchPatients : M unit :=
  try_finally
    (try_catch
       (setLoading true ;;
        data <- getAllPatients ;;
        setPatients data)
       (fun error =>
          setErrorMessage
            (js "Gagal mengambil data pasien. Pastikan backend sudah berjalan.")))
    (setLoading false).

(** The object [newErrors] built by [validateForm]. *)
Definition newErrors (formData : PatientFormData.t) : FormErrors :=
  let e : FormErrors := ∅ in
  let e :=
    if negb (truthy (trim (PatientFormData.nama formData)))
    then <["nama"%string := js "Nama tidak boleh kosong"]> e else e in
  let e :=
    if negb (truthy (trim (PatientFormData.nik formData)))
    then <["nik"%string := js "NIK tidak boleh kosong"]> e
    else if negb (test nik_pattern (PatientFormData.nik formData))
    then <["nik"%string := js "NIK hanya boleh berisi angka"]> e else e in
  let e :=
    if negb (truthy (PatientFormData.tanggal_lahir formData))
    then <["tanggal_lahir"%string := js "Tanggal lahir tidak boleh kosong"]> e
    else e in
  let e :=
    if negb (truthy (PatientFormData.jenis_kelamin formData))
    then <["jenis_kelamin"%string := js "Jenis kelamin tidak boleh kosong"]> e
    else e in
  let e :=
    if negb (truthy (trim (PatientFormData.alamat formData)))
    then <["alamat"%string := js "Alamat tidak boleh kosong"]> e else e in
  let e :=
    if negb (truthy (trim (PatientFormData.no_telepon formData)))
    then <["no_telepon"%string := js "No telepon tidak boleh kosong"]> e else e in
  let e :=
    if negb (truthy (PatientFormData.golongan_darah formData))
    then <["golongan_darah"%string := js "Golongan darah tidak boleh kosong"]> e
    else e in
  let e :=
    if truthy (PatientFormData.email formData)
       && negb (test email_pattern (PatientFormData.email formData))
    then <["email"%string := js "Format email tidak valid"]> e else e in
  e.

(** The handlers are closures of a render: [r] is the state that render
    saw, while the setters act on the current state. *)
Definition validateForm (r : State) : M bool :=
  let newErrors := newErrors (formData r) in
  setErrors newErrors ;;
  ret (Nat.eqb (size newErrors) 0).

(** The identifier tested by [if (editingId)]: [null] and [0] are falsy. *)
Definition truthy_id (editingId : option Z) : option Z :=
  match editingId with
  | Some id => if (id =? 0)%Z then None else Some id
  | None => None
  end.

(** The banner text chosen in the [catch] of [handleSubmit]. *)
Definition submitErrorMessage (error : JsError) : jsstring :=
  match error with
  | AxiosError (Some apiError) =>
      match ApiError.errors apiError with
      | Some errs => join (js ", ") errs
      | None =>
          if truthy (ApiError.message apiError)
          then ApiError.message apiError
          else js "Terjadi kesalahan"
      end
  | _ => js "Terjadi kesalahan saat menyimpan data"
  end.

Definition handleSubmit (r : State) : M unit :=
  setSuccessMessage [] ;;
  setErrorMessage [] ;;
  valid <- validateForm r ;;
  if negb valid then ret tt
  else
    try_catch
      (match truthy_id (editingId r) with
       | Some id =>
           updatePatient id (formData r) ;;
           setSuccessMessage (js "Data pasien berhasil diperbarui!")
       | None =>
           createPatient (formData r) ;;
           setSuccessMessage (js "Pasien baru berhasil ditambahkan!")
       end ;;
       setFormData initialFormData ;;
       setEditingId None ;;
       setShowForm false ;;
       fetchPatients)
      (fun error => setErrorMessage (submitErrorMessage error)).

(** [confirmed] is the answer given to [window.confirm]. *)
Definition handleDelete (id : Z) (nama : jsstring) (confirmed : bool)
  : M unit :=
  if confirmed then
    try_catch
      (deletePatient id ;;
       setSuccessMessage (js "Data pasien berhasil dihapus!") ;;
       fetchPatients)
      (fun error => setErrorMessage (js "Gagal menghapus data pasien"))
  else ret tt.
End Client.

(** ** The list filter

    [String.prototype.toLowerCase] is a parameter: the properties below hold
    for whatever case mapping the engine applies. *)

Section Filter.
Variable toLowerCase : jsstring → jsstring.

Definition matchesKeyword (searchKeyword : jsstring) (patient : Patient.t)
  : bool :=
  includes (toLowerCase (Patient.nama patient)) (toLowerCase searchKeyword)
  || includes (Patient.nik patient) searchKeyword.

(** [patients.filter(patient => ...)]: a new array with the elements the
    callback accepts, in order. *)
Definition filteredPatients (patients : list Patient.t)
    (searchKeyword : jsstring) : list Patient.t :=
  List.filter (matchesKeyword searchKeyword) patients.

End Filter.

(** Case mapping of the Basic Latin letters. *)
Definition lower_unit (c : N) : N :=
  if (65 <=? c) && (c <=? 90) then c + 32 else c.

Definition asciiLowerCase (s : jsstring) : jsstring := List.map lower_unit s.

(** What is known of the engine's [toLowerCase]: on a string of Basic Latin
    characters it lowers the letters [A-Z] and leaves the rest. *)
Definition lowers_ascii (toLowerCase : jsstring → jsstring) : Prop :=
  ∀ s, Forall (λ c, c < 128) s → toLowerCase s = asciiLowerCase s.

(** ** The vocabulary of the specification *)

(** [k] occurs in [s] as a contiguous substring. *)
Definition Substring (k s : jsstring) : Prop := ∃ pre post, s = pre ++ k ++ post.

(** Digits only. *)
Definition DigitsOnly (s : jsstring) : Prop := Forall (λ c, 48 ≤ c ≤ 57) s.

(** A character that is neither white space nor ["@"]. *)
Definition plain (c : N) : Prop := is_whitespace c = false ∧ c ≠ AT.

(** The shape [x@y.z]: three non-empty parts free of white space and of any
    further ["@"], separated by ["@"] and by a dot. *)
Definition EmailShape (s : jsstring) : Prop :=
  ∃ x y z, s = x ++ AT :: y ++ DOT :: z
    ∧ x ≠ [] ∧ y ≠ [] ∧ z ≠ []
    ∧ Forall plain x ∧ Forall plain y ∧ Forall plain z.

(** A domain segment: something between an ["@"] and a later dot. *)
Definition HasDomainSegment (s : jsstring) : Prop :=
  ∃ pre y post, s = pre ++ AT :: y ++ DOT :: post ∧ y ≠ [].

(** The seven required fields are filled: not blank once trimmed for the
    free-text ones, not empty for the date and the two selections. *)
Definition RequiredFilled (fd : PatientFormData.t) : Prop :=
  trim (PatientFormData.nama fd) ≠ []
  ∧ trim (PatientFormData.nik fd) ≠ []
  ∧ PatientFormData.tanggal_lahir fd ≠ []
  ∧ PatientFormData.jenis_kelamin fd ≠ []
  ∧ trim (PatientFormData.alamat fd) ≠ []
  ∧ trim (PatientFormData.no_telepon fd) ≠ []
  ∧ PatientFormData.golongan_darah fd ≠ [].

(** The optional e-mail is absent or well shaped. *)
Definition EmailOk (fd : PatientFormData.t) : Prop :=
  PatientFormData.email fd = [] ∨ EmailShape (PatientFormData.email fd).

(** No rule of the validator fails. *)
Definition AllRulesPass (fd : PatientFormData.t) : Prop :=
  RequiredFilled fd ∧ DigitsOnly (PatientFormData.nik fd) ∧ EmailOk fd.

(** The mapping the validator leaves in the state when a render [r] runs it
    in the world [w]. *)
Definition validationResult (r : State) (w : World) : FormErrors :=
  errors (ui (validateForm r w).2).

(** The request a submit issues, and the service's answer to it after the
    requests [h]: an update when an identifier is being edited, a creation
    otherwise. *)
Definition submitCall (r : State) : Call :=
  match truthy_id (editingId r) with
  | Some id => PATCH_patients id (formData r)
  | None => POST_patients (formData r)
  end.

Definition submitReply (svc : Service) (r : State) (h : list Call)
  : Reply Patient.t :=
  match truthy_id (editingId r) with
  | Some id => on_update svc h id (formData r)
  | None => on_create svc h (formData r)
  end.

(** A create, update or delete request. *)
Definition is_mutation (c : Call) : bool :=
  match c with GET_patients => false | _ => true end.

(** Every mutation of a trace is immediately followed by a list fetch. *)
Definition RefetchAfterEveryMutation (t : list Call) : Prop :=
  ∀ i c, t !! i = Some c → is_mutation c = true
         → t !! S i = Some GET_patients.

(** The state a submit has reached when validation is over: both banners
    cleared and the validator's mapping stored. *)
Definition validated (r : State) (w : World) : State :=
  mkState (patients (ui w)) (loading (ui w)) (formData (ui w))
    (newErrors (formData r)) (editingId (ui w)) (showForm (ui w)) [] []
    (searchKeyword (ui w)).

(** ** Sample data and services *)

Definition validDraft : PatientFormData.t :=
  PatientFormData.mk (js "Budi") (js "3201234567890001") (js "1990-05-17")
    (js "Laki-laki") (js "Jl. Kenanga 2") (js "081234567890")
    (js "budi@mail.id") (js "A").

(** An open form holding [validDraft], nothing being edited. *)
Definition filledForm : State :=
  mkState [] false validDraft ∅ None true [] [] [].

Definition budi : Patient.t :=
  Patient.mk 1 (js "Budi") (js "3201234567890001") (js "1990-05-17")
    (js "Laki-laki") (js "Jl. Kenanga 2") (js "081234567890")
    (Some (js "budi@mail.id")) (js "A") (js "2025-01-01") (js "2025-01-01").

Definition sari : Patient.t :=
  Patient.mk 2 (js "Sari") (js "3301234567890002") (js "1988-11-30")
    (js "Perempuan") (js "Jl. Mawar 7") (js "085712345678")
    None (js "O") (js "2025-01-02") (js "2025-01-02").

(** A service that rejects every request with [e]. *)
Definition rejectingService (e : JsError) : Service :=
  {| on_getAll := λ _, Rejected e;
     on_create := λ _ _, Rejected e;
     on_update := λ _ _ _, Rejected e;
     on_delete := λ _ _, Rejected e |}.

(** A service that accepts every request and always lists [data]. *)
Definition acceptingService (data : list Patient.t) : Service :=
  {| on_getAll := λ _, Fulfilled data;
     on_create := λ _ _, Fulfilled budi;
     on_update := λ _ _ _, Fulfilled budi;
     on_delete := λ _ _, Fulfilled (js "deleted") |}.

(** The rejection of the scenario: a response whose payload lists one
    field-level error. *)
Definition nikExists : JsError :=
  AxiosError
    (Some (ApiError.mk false 409 (js "Conflict")
             (Some [js "NIK already exists"]))).

(** ** The other handlers of the page *)

(** [String.prototype.split] with a separator of one code unit: the pieces
    between the occurrences of [sep]; never an empty array. *)
Fixpoint split (sep : N) (s : jsstring) : list jsstring :=
  match s with
  | [] => [[]]
  | c :: r =>
      if c =? sep then [] :: split sep r
      else match split sep r with
           | [] => [[c]]
           | x :: xs => (c :: x) :: xs
           end
  end.

(** The code unit of ["T"]. *)
Definition LETTER_T : N := 84.

(** [a || ''] on an optional string: the string when present and not
    empty. *)
Definition or_empty (a : option jsstring) : jsstring :=
  match a with
  | Some v => if truthy v then v else []
  | None => []
  end.

(** [setFormData(prev => f(prev))] and [setErrors(prev => f(prev))]. *)
Definition updateFormData (f : PatientFormData.t → PatientFormData.t)
  : M unit :=
  modify (fun s => mkState (patients s) (loading s) (f (formData s))
    (errors s) (editingId s) (showForm s) (successMessage s) (errorMessage s)
    (searchKeyword s)).
Definition updateErrors (f : FormErrors → FormErrors) : M unit :=
  modify (fun s => mkState (patients s) (loading s) (formData s)
    (f (errors s)) (editingId s) (showForm s) (successMessage s)
    (errorMessage s) (searchKeyword s)).

Definition handleEdit (patient : Patient.t) : M unit :=
  setFormData
    (PatientFormData.mk
       (Patient.nama patient)
       (Patient.nik patient)
       (hd [] (split LETTER_T (Patient.tanggal_lahir patient)))
       (Patient.jenis_kelamin patient)
       (Patient.alamat patient)
       (Patient.no_telepon patient)
       (or_empty (Patient.email patient))
       (Patient.golongan_darah patient)) ;;
  setEditingId (Some (Patient.id patient)) ;;
  setShowForm true ;;
  setErrors ∅.

(** The [name] attribute of the eight inputs that call
    [handleInputChange]. *)
Inductive FieldName : Type :=
| f_nama | f_nik | f_tanggal_lahir | f_jenis_kelamin
| f_alamat | f_no_telepon | f_email | f_golongan_darah.

#[global] Instance FieldName_eq_dec : EqDecision FieldName.
Proof. solve_decision. Defined.

Definition field_key (name : FieldName) : string :=
  match name with
  | f_nama => "nama"
  | f_nik => "nik"
  | f_tanggal_lahir => "tanggal_lahir"
  | f_jenis_kelamin => "jenis_kelamin"
  | f_alamat => "alamat"
  | f_no_telepon => "no_telepon"
  | f_email => "email"
  | f_golongan_darah => "golongan_darah"
  end%string.

(** [formData[name]] *)
Definition get_field (name : FieldName) (fd : PatientFormData.t) : jsstring :=
  match name with
  | f_nama => PatientFormData.nama fd
  | f_nik => PatientFormData.nik fd
  | f_tanggal_lahir => PatientFormData.tanggal_lahir fd
  | f_jenis_kelamin => PatientFormData.jenis_kelamin fd
  | f_alamat => PatientFormData.alamat fd
  | f_no_telepon => PatientFormData.no_telepon fd
  | f_email => PatientFormData.email fd
  | f_golongan_darah => PatientFormData.golongan_darah fd
  end.

(** [{ ...prev, [name]: value }] *)
Definition set_field (name : FieldName) (value : jsstring)
    (prev : PatientFormData.t) : PatientFormData.t :=
  let '(PatientFormData.mk a b c d e f g h) := prev in
  match name with
  | f_nama => PatientFormData.mk value b c d e f g h
  | f_nik => PatientFormData.mk a value c d e f g h
  | f_tanggal_lahir => PatientFormData.mk a b value d e f g h
  | f_jenis_kelamin => PatientFormData.mk a b c value e f g h
  | f_alamat => PatientFormData.mk a b c d value f g h
  | f_no_telepon => PatientFormData.mk a b c d e value g h
  | f_email => PatientFormData.mk a b c d e f value h
  | f_golongan_darah => PatientFormData.mk a b c d e f g value
  end.

(** [errors[name]], [undefined] read as the empty string: only its
    truthiness is ever used. *)
Definition error_of (e : FormErrors) (key : string) : jsstring :=
  default [] (e !! key).

(** Whether the error paragraph of a field is rendered:
    [errors.nama && <p>...</p>]. *)
Definition errorShown (e : FormErrors) (key : string) : bool :=
  truthy (error_of e key).

Definition handleInputChange (r : State) (name : FieldName)
    (value : jsstring) : M unit :=
  updateFormData (set_field name value) ;;
  if truthy (error_of (errors r) (field_key name))
  then updateErrors (fun prev => <[field_key name := []]> prev)
  else ret tt.

(** The button that opens or closes the form. *)
Definition toggleForm (r : State) : M unit :=
  setShowForm (negb (showForm r)) ;;
  setFormData initialFormData ;;
  setEditingId None ;;
  setErrors ∅.

(** The button "Batal". *)
Definition cancelForm : M unit :=
  setShowForm false ;;
  setFormData initialFormData ;;
  setEditingId None ;;
  setErrors ∅.

(** A handler called from the render of the current state. *)
Definition dispatch {A} (h : State → M A) : M A := fun w => h (ui w) w.

(** The world a handler leaves. *)
Definition after {A} (m : M A) (w : World) : World := (m w).2.

(** Basic Latin. *)
Definition Ascii (s : jsstring) : Prop := Forall (λ c, c < 128) s.

(** A run of input events, each handled by the render of the state the
    previous one left. *)
Fixpoint typing (events : list (FieldName * jsstring)) : M unit :=
  match events with
  | [] => ret tt
  | (name, value) :: rest =>
      dispatch (λ r, handleInputChange r name value) ;; typing rest
  end.

(** The value typed last in the field [name], if any. *)
Fixpoint last_typed (name : FieldName) (events : list (FieldName * jsstring))
  : option jsstring :=
  match events with
  | [] => None
  | (g, v) :: rest =>
      match last_typed name rest with
      | Some v' => Some v'
      | None => if decide (g = name) then Some v else None
      end
  end.

(** What the list area of the page renders: the spinner while loading, the
    "no data" notice when the filtered list is empty, and otherwise one row
    per filtered record, numbered [index + 1]. *)
Inductive ListView : Type :=
| Spinner
| NoData
| Table (rows : list (nat * Patient.t)).

Definition listView (toLowerCase : jsstring → jsstring) (s : State)
  : ListView :=
  if loading s then Spinner
  else
    match filteredPatients toLowerCase (patients s) (searchKeyword s) with
    | [] => NoData
    | rows => Table (imap (λ index patient, (S index, patient)) rows)
    end.

(** [useEffect(() => { fetchPatients(); }, [])]: the effect of the first
    render. *)
Definition mount (svc : Service) : M unit := fetchPatients svc.

(** * Properties *)

(** ** Strings *)

Lemma truthy_false (s : jsstring) : truthy s = false ↔ s = [].
Proof. destruct s; simpl; split; congruence. Qed.

Lemma truthy_true (s : jsstring) : truthy s = true ↔ s ≠ [].
Proof. destruct s; simpl; split; congruence. Qed.

Lemma trimStart_nil (s : jsstring) :
  trimStart s = [] ↔ Forall (λ c, is_whitespace c = true) s.
Proof.
  induction s as [|c s IH]; simpl.
  - split; [constructor | done].
  - destruct (is_whitespace c) eqn:Hc.
    + rewrite IH. split; [by constructor | by inversion 1].
    + split; [done | inversion 1; congruence].
Qed.

Lemma trimStart_whitespace (s : jsstring) :
  Forall (λ c, is_whitespace c = true) (trimStart s)
  ↔ Forall (λ c, is_whitespace c = true) s.
Proof.
  induction s as [|c s IH]; simpl; [done|].
  destruct (is_whitespace c) eqn:Hc; [|done].
  rewrite IH. split; [by constructor | by inversion 1].
Qed.

(** Trimming leaves nothing exactly when the string is all white space. *)
Lemma trim_nil (s : jsstring) :
  trim s = [] ↔ Forall (λ c, is_whitespace c = true) s.
Proof.
  unfold trim, trimEnd.
  rewrite <- trimStart_whitespace.
  split.
  - intros H. apply (f_equal (@rev N)) in H. rewrite rev_involutive in H.
    simpl in H. apply trimStart_nil in H.
    apply Forall_rev in H. by rewrite rev_involutive in H.
  - intros H. apply Forall_rev in H. apply trimStart_nil in H.
    by rewrite H.
Qed.

Lemma trim_nil_of_nil : trim [] = [].
Proof. reflexivity. Qed.

Lemma startsWith_spec (s k : jsstring) :
  startsWith s k = true ↔ ∃ post, s = k ++ post.
Proof.
  revert s. induction k as [|b k IH]; intros s; simpl.
  - split; [eauto | done].
  - destruct s as [|a s].
    + split; [done | intros [post H]; discriminate].
    + rewrite andb_true_iff, N.eqb_eq, IH. split.
      * intros [-> [post ->]]. eauto.
      * intros [post H]. injection H as -> ->. eauto.
Qed.

(** [includes] decides the substring relation. *)
Lemma includes_spec (s k : jsstring) :
  includes s k = true ↔ ∃ pre post, s = pre ++ k ++ post.
Proof.
  induction s as [|a s IH]; simpl.
  - rewrite orb_false_r, startsWith_spec. split.
    + intros [post H]. by exists [], post.
    + intros (pre & post & H). destruct pre; [by exists post |discriminate].
  - rewrite orb_true_iff, startsWith_spec, IH. split.
    + intros [[post H] | (pre & post & ->)].
      * by exists [], post.
      * by exists (a :: pre), post.
    + intros (pre & post & H). destruct pre as [|a' pre]; simpl in H.
      * left. eauto.
      * right. injection H as -> ->. eauto.
Qed.

Lemma includes_nil (s : jsstring) : includes s [] = true.
Proof. apply includes_spec. by exists [], s. Qed.

Lemma join_singleton (sep x : jsstring) : join sep [x] = x.
Proof. reflexivity. Qed.

(** ** The matcher decides the language of a pattern *)

Lemma nullable_spec (r : regex) : nullable r = true ↔ lang r [].
Proof.
  induction r as [| |p|r1 IH1 r2 IH2|r1 IH1 r2 IH2|r IH]; simpl.
  - done.
  - done.
  - split; [done | intros (c & H & _); discriminate].
  - rewrite andb_true_iff, IH1, IH2. split.
    + intros [H1 H2]. by exists [], [].
    + intros (s1 & s2 & H & H1 & H2).
      symmetry in H. apply app_eq_nil in H as [-> ->]. done.
  - by rewrite orb_true_iff, IH1, IH2.
  - split; [intros _; by exists [] | done].
Qed.

Lemma lang_star_cons (r : regex) (c : N) (s : jsstring) :
  lang (Star r) (c :: s)
  ↔ ∃ s1 s2, s = s1 ++ s2 ∧ lang r (c :: s1) ∧ lang (Star r) s2.
Proof.
  split.
  - intros (ss & Hs & Hall). simpl.
    induction Hall as [|x ss Hx Hall IH]; simpl in Hs; [discriminate|].
    destruct x as [|a x]; simpl in Hs; [by apply IH|].
    injection Hs as <- ->. exists x, (concat ss). eauto.
  - intros (s1 & s2 & -> & H1 & ss & -> & Hall).
    exists ((c :: s1) :: ss). split; [done | by constructor].
Qed.

Lemma lang_seq_cons (r1 r2 : regex) (c : N) (s : jsstring) :
  lang (Seq r1 r2) (c :: s)
  ↔ (∃ s1 s2, s = s1 ++ s2 ∧ lang r1 (c :: s1) ∧ lang r2 s2)
    ∨ (lang r1 [] ∧ lang r2 (c :: s)).
Proof.
  simpl. split.
  - intros (s1 & s2 & Hs & H1 & H2). destruct s1 as [|a s1]; simpl in Hs.
    + subst s2. by right.
    + injection Hs as <- ->. left. eauto.
  - intros [(s1 & s2 & -> & H1 & H2) | [H1 H2]].
    + by exists (c :: s1), s2.
    + by exists [], (c :: s).
Qed.

Lemma deriv_spec (r : regex) (c : N) (s : jsstring) :
  lang (deriv c r) s ↔ lang r (c :: s).
Proof.
  revert s.
  induction r as [| |p|r1 IH1 r2 IH2|r1 IH1 r2 IH2|r IH]; intros s.
  - done.
  - simpl. split; [done | discriminate].
  - simpl. destruct (p c) eqn:Hp; simpl.
    + split; [intros ->; eauto | by intros (a & [= _ ->] & _)].
    + split; [done | intros (a & [= <- _] & Ha); congruence].
  - rewrite lang_seq_cons. cbn [deriv].
    destruct (nullable r1) eqn:Hn.
    + apply nullable_spec in Hn. cbn [lang].
      rewrite IH2. setoid_rewrite IH1. tauto.
    + cbn [lang]. setoid_rewrite IH1. split; [tauto|].
      intros [H | [H _]]; [done|].
      apply nullable_spec in H. congruence.
  - simpl. by rewrite IH1, IH2.
  - rewrite lang_star_cons. cbn [deriv]. cbn [lang].
    by setoid_rewrite IH.
Qed.

Theorem test_spec (r : regex) (s : jsstring) : test r s = true ↔ lang r s.
Proof.
  revert r. induction s as [|c s IH]; intros r; simpl.
  - apply nullable_spec.
  - by rewrite IH, deriv_spec.
Qed.

Lemma lang_star_class (p : N → bool) (s : jsstring) :
  lang (Star (Class p)) s ↔ Forall (λ c, p c = true) s.
Proof.
  split.
  - intros (ss & -> & Hall).
    induction Hall as [|x ss (c & -> & Hc) _ IH]; simpl; [done|].
    by constructor.
  - intros H. exists (List.map (λ c, [c]) s). split.
    + induction s as [|c s IH]; simpl; [done|].
      inversion H; subst. f_equal. by apply IH.
    + induction H; simpl; constructor; eauto.
Qed.

Lemma lang_plus_class (p : N → bool) (s : jsstring) :
  lang (Plus (Class p)) s ↔ s ≠ [] ∧ Forall (λ c, p c = true) s.
Proof.
  unfold Plus. cbn [lang]. setoid_rewrite lang_star_class. split.
  - intros (s1 & s2 & -> & (c & -> & Hc) & H2). split; [done|].
    by constructor.
  - intros [Hne H]. destruct s as [|c s]; [done|].
    inversion H; subst. exists [c], s. eauto.
Qed.

Lemma is_digit_spec (c : N) : is_digit c = true ↔ 48 ≤ c ≤ 57.
Proof. unfold is_digit. rewrite andb_true_iff, !N.leb_le. done. Qed.

Lemma not_space_at_spec (c : N) : not_space_at c = true ↔ plain c.
Proof.
  unfold not_space_at, plain.
  rewrite negb_true_iff, orb_false_iff, N.eqb_neq. done.
Qed.

Lemma Forall_not_space_at (s : jsstring) :
  Forall (λ c, not_space_at c = true) s ↔ Forall plain s.
Proof. apply Forall_iff. intros c. apply not_space_at_spec. Qed.

(** [/^[0-9]+$/] accepts the non-empty strings of digits. *)
Lemma test_nik_pattern (s : jsstring) :
  test nik_pattern s = true ↔ s ≠ [] ∧ DigitsOnly s.
Proof.
  unfold nik_pattern, DigitsOnly. rewrite test_spec, lang_plus_class.
  apply and_iff_compat_l, Forall_iff. intros c. apply is_digit_spec.
Qed.

Lemma lang_class_eqb (a : N) (s : jsstring) :
  lang (Class (N.eqb a)) s ↔ s = [a].
Proof.
  simpl. split.
  - intros (c & -> & Hc). apply N.eqb_eq in Hc. by subst.
  - intros ->. exists a. by rewrite N.eqb_refl.
Qed.

(** [/^[^\s@]+@[^\s@]+\.[^\s@]+$/] accepts exactly the shape [x@y.z]. *)
Lemma test_email_pattern (s : jsstring) :
  test email_pattern s = true ↔ EmailShape s.
Proof.
  unfold email_pattern, EmailShape. rewrite test_spec.
  cbn [lang]. setoid_rewrite lang_class_eqb.
  change (lang (Seq (Class not_space_at) (Star (Class not_space_at))))
    with (lang (Plus (Class not_space_at))).
  setoid_rewrite lang_plus_class. setoid_rewrite Forall_not_space_at.
  split.
  - intros (x & ? & -> & [Hx Hx'] & ? & ? & -> & -> & y & ? & -> & [Hy Hy']
            & ? & z & -> & -> & [Hz Hz']).
    by exists x, y, z.
  - intros (x & y & z & -> & Hx & Hy & Hz & Hx' & Hy' & Hz').
    exists x, (AT :: y ++ DOT :: z). split_and!; [done..|].
    exists [AT], (y ++ DOT :: z). split_and!; [done..|].
    exists y, (DOT :: z). split_and!; [done..|].
    exists [DOT], z. done.
Qed.

Lemma EmailShape_has_at (s : jsstring) : EmailShape s → AT ∈ s.
Proof.
  intros (x & y & z & -> & _). apply elem_of_app. right. by left.
Qed.

Lemma EmailShape_has_domain (s : jsstring) : EmailShape s → HasDomainSegment s.
Proof.
  intros (x & y & z & -> & _ & Hy & _). by exists x, y, z.
Qed.

Lemma EmailShape_nonempty (s : jsstring) : EmailShape s → s ≠ [].
Proof. intros (x & y & z & -> & _). by destruct x. Qed.

(** ** The validator *)

(** One guarded assignment [if (b) newErrors[k] = v], read at key [k']. *)
Lemma lookup_guarded_insert (b : bool) (k k' : string) (v : jsstring)
    (m : FormErrors) :
  (if b then <[k:=v]> m else m) !! k'
  = if b && bool_decide (k = k') then Some v else m !! k'.
Proof.
  destruct b; simpl; [|done].
  case_bool_decide as Hk; [subst; apply lookup_insert_eq|].
  by apply lookup_insert_ne.
Qed.

(** The two-armed assignment of the identity-number rule. *)
Lemma lookup_guarded_insert2 (b1 b2 : bool) (k k' : string)
    (v1 v2 : jsstring) (m : FormErrors) :
  (if b1 then <[k:=v1]> m else if b2 then <[k:=v2]> m else m) !! k'
  = if b1 && bool_decide (k = k') then Some v1
    else if b2 && bool_decide (k = k') then Some v2 else m !! k'.
Proof.
  destruct b1; simpl; [|apply lookup_guarded_insert].
  case_bool_decide as Hk; [subst; apply lookup_insert_eq|].
  rewrite andb_false_r. by apply lookup_insert_ne.
Qed.

Ltac newErrors_unfold :=
  unfold newErrors; cbv zeta;
  rewrite !lookup_guarded_insert, lookup_guarded_insert2,
    !lookup_guarded_insert, lookup_empty.

Ltac newErrors_lookup :=
  newErrors_unfold;
  repeat
    match goal with
    | |- context [bool_decide (?a = ?b)] =>
        let v := eval vm_compute in (bool_decide (a = b)) in
        change (bool_decide (a = b)) with v
    end;
  rewrite ?andb_false_r, ?andb_true_r;
  repeat match goal with |- context [negb ?b] => destruct b; cbn [negb] end;
  reflexivity.

Section NewErrors.
Variable fd : PatientFormData.t.

Lemma newErrors_nama :
  newErrors fd !! "nama"%string
  = if truthy (trim (PatientFormData.nama fd)) then None
    else Some (js "Nama tidak boleh kosong").
Proof. newErrors_lookup. Qed.

Lemma newErrors_nik :
  newErrors fd !! "nik"%string
  = if truthy (trim (PatientFormData.nik fd))
    then if test nik_pattern (PatientFormData.nik fd) then None
         else Some (js "NIK hanya boleh berisi angka")
    else Some (js "NIK tidak boleh kosong").
Proof. newErrors_lookup. Qed.

Lemma newErrors_tanggal_lahir :
  newErrors fd !! "tanggal_lahir"%string
  = if truthy (PatientFormData.tanggal_lahir fd) then None
    else Some (js "Tanggal lahir tidak boleh kosong").
Proof. newErrors_lookup. Qed.

Lemma newErrors_jenis_kelamin :
  newErrors fd !! "jenis_kelamin"%string
  = if truthy (PatientFormData.jenis_kelamin fd) then None
    else Some (js "Jenis kelamin tidak boleh kosong").
Proof. newErrors_lookup. Qed.

Lemma newErrors_alamat :
  newErrors fd !! "alamat"%string
  = if truthy (trim (PatientFormData.alamat fd)) then None
    else Some (js "Alamat tidak boleh kosong").
Proof. newErrors_lookup. Qed.

Lemma newErrors_no_telepon :
  newErrors fd !! "no_telepon"%string
  = if truthy (trim (PatientFormData.no_telepon fd)) then None
    else Some (js "No telepon tidak boleh kosong").
Proof. newErrors_lookup. Qed.

Lemma newErrors_golongan_darah :
  newErrors fd !! "golongan_darah"%string
  = if truthy (PatientFormData.golongan_darah fd) then None
    else Some (js "Golongan darah tidak boleh kosong").
Proof. newErrors_lookup. Qed.

Lemma newErrors_email :
  newErrors fd !! "email"%string
  = if truthy (PatientFormData.email fd)
       && negb (test email_pattern (PatientFormData.email fd))
    then Some (js "Format email tidak valid") else None.
Proof.
  newErrors_unfold.
  repeat
    match goal with
    | |- context [bool_decide (?a = ?b)] =>
        let v := eval vm_compute in (bool_decide (a = b)) in
        change (bool_decide (a = b)) with v
    end.
  rewrite ?andb_false_r, ?andb_true_r. reflexivity.
Qed.

(** Only the eight field names can be keys of the result. *)
Lemma newErrors_other (k : string) :
  k ∉ ["nama"; "nik"; "tanggal_lahir"; "jenis_kelamin"; "alamat";
       "no_telepon"; "golongan_darah"; "email"]%string →
  newErrors fd !! k = None.
Proof.
  intros Hk. newErrors_unfold.
  repeat (case_bool_decide as H;
          [subst k; exfalso; apply Hk; set_solver |]; clear H).
  by rewrite ?andb_false_r.
Qed.
End NewErrors.

Lemma email_condition (s : jsstring) :
  truthy s && negb (test email_pattern s) = false ↔ s = [] ∨ EmailShape s.
Proof.
  rewrite andb_false_iff, negb_false_iff, truthy_false, test_email_pattern.
  done.
Qed.

(** The mapping is empty exactly when every guard of the validator is off. *)
Lemma newErrors_empty (fd : PatientFormData.t) :
  newErrors fd = ∅ ↔ AllRulesPass fd.
Proof.
  unfold AllRulesPass, RequiredFilled, EmailOk. split.
  - intros He.
    pose proof (newErrors_nama fd) as H1.
    pose proof (newErrors_nik fd) as H2.
    pose proof (newErrors_tanggal_lahir fd) as H3.
    pose proof (newErrors_jenis_kelamin fd) as H4.
    pose proof (newErrors_alamat fd) as H5.
    pose proof (newErrors_no_telepon fd) as H6.
    pose proof (newErrors_golongan_darah fd) as H7.
    pose proof (newErrors_email fd) as H8.
    rewrite He, lookup_empty in H1, H2, H3, H4, H5, H6, H7, H8.
    destruct (truthy (trim (PatientFormData.nama fd))) eqn:E1; [|done].
    destruct (truthy (trim (PatientFormData.nik fd))) eqn:E2; [|done].
    destruct (test nik_pattern (PatientFormData.nik fd)) eqn:E2'; [|done].
    destruct (truthy (PatientFormData.tanggal_lahir fd)) eqn:E3; [|done].
    destruct (truthy (PatientFormData.jenis_kelamin fd)) eqn:E4; [|done].
    destruct (truthy (trim (PatientFormData.alamat fd))) eqn:E5; [|done].
    destruct (truthy (trim (PatientFormData.no_telepon fd))) eqn:E6; [|done].
    destruct (truthy (PatientFormData.golongan_darah fd)) eqn:E7; [|done].
    destruct (truthy (PatientFormData.email fd)
              && negb (test email_pattern (PatientFormData.email fd)))
      eqn:E8; [done|].
    apply truthy_true in E1, E2, E3, E4, E5, E6, E7.
    apply test_nik_pattern in E2' as [_ E2']. apply email_condition in E8.
    done.
  - intros ((E1 & E2 & E3 & E4 & E5 & E6 & E7) & E2' & E8).
    apply truthy_true in E1, E2, E3, E4, E5, E6, E7.
    assert (test nik_pattern (PatientFormData.nik fd) = true) as E2''.
    { apply test_nik_pattern. split; [|done].
      apply truthy_true in E2. intros Hn. apply E2. by rewrite Hn. }
    apply email_condition in E8.
    unfold newErrors. by rewrite E1, E2, E2'', E3, E4, E5, E6, E7, E8.
Qed.

Lemma validateForm_run (r : State) (w : World) :
  validateForm r w
  = (Normal (Nat.eqb (size (newErrors (formData r))) 0),
     mkWorld
       (mkState (patients (ui w)) (loading (ui w)) (formData (ui w))
          (newErrors (formData r)) (editingId (ui w)) (showForm (ui w))
          (successMessage (ui w)) (errorMessage (ui w))
          (searchKeyword (ui w)))
       (calls w)).
Proof. reflexivity. Qed.

Lemma validationResult_newErrors (r : State) (w : World) :
  validationResult r w = newErrors (formData r).
Proof. reflexivity. Qed.

Lemma size_eqb_0 (e : FormErrors) : Nat.eqb (size e) 0 = bool_decide (e = ∅).
Proof.
  case_bool_decide as He.
  - subst. by rewrite map_size_empty.
  - apply Nat.eqb_neq. by rewrite map_size_empty_iff.
Qed.

(** C1. For every draft, the validator records an entry for each of the
    seven required fields that is empty (after trimming, for the four
    free-text ones); its boolean result tells whether the mapping is empty,
    which happens if and only if no rule fails; so a draft with a required
    field missing gets a non-empty mapping holding an entry per missing
    field. *)
Theorem validateForm_required_fields (r : State) (w : World) :
  let fd := formData r in
  let e := validationResult r w in
  (validateForm r w).1 = Normal (bool_decide (e = ∅))
  ∧ (trim (PatientFormData.nama fd) = [] → is_Some (e !! "nama"%string))
  ∧ (trim (PatientFormData.nik fd) = [] → is_Some (e !! "nik"%string))
  ∧ (PatientFormData.tanggal_lahir fd = []
     → is_Some (e !! "tanggal_lahir"%string))
  ∧ (PatientFormData.jenis_kelamin fd = []
     → is_Some (e !! "jenis_kelamin"%string))
  ∧ (trim (PatientFormData.alamat fd) = [] → is_Some (e !! "alamat"%string))
  ∧ (trim (PatientFormData.no_telepon fd) = []
     → is_Some (e !! "no_telepon"%string))
  ∧ (PatientFormData.golongan_darah fd = []
     → is_Some (e !! "golongan_darah"%string))
  ∧ (e = ∅ ↔ AllRulesPass fd)
  ∧ (¬ RequiredFilled fd → e ≠ ∅).
Proof.
  intros fd e. subst e. rewrite validationResult_newErrors. fold fd.
  split_and!.
  - rewrite validateForm_run. simpl. by rewrite size_eqb_0.
  - intros H. rewrite newErrors_nama, H. simpl. eauto.
  - intros H. rewrite newErrors_nik, H. simpl. eauto.
  - intros H. rewrite newErrors_tanggal_lahir, H. simpl. eauto.
  - intros H. rewrite newErrors_jenis_kelamin, H. simpl. eauto.
  - intros H. rewrite newErrors_alamat, H. simpl. eauto.
  - intros H. rewrite newErrors_no_telepon, H. simpl. eauto.
  - intros H. rewrite newErrors_golongan_darah, H. simpl. eauto.
  - apply newErrors_empty.
  - intros Hreq He. apply newErrors_empty in He as [? _]. done.
Qed.

Lemma DigitsOnly_no_other (s : jsstring) :
  (∃ c, c ∈ s ∧ ¬ 48 ≤ c ≤ 57) → ¬ DigitsOnly s.
Proof.
  intros (c & Hc & Hn) Hall. unfold DigitsOnly in Hall.
  rewrite Forall_forall in Hall. by apply Hn, Hall.
Qed.

(** C3. A draft whose identity number holds a character that is not a digit
    always gets an entry for that field, whatever the other fields hold; and
    the draft named "Ana" with identity number "12AB", its other required
    fields filled and its optional e-mail absent or well shaped, gets that
    entry alone. *)
Theorem validateForm_nik_digits (r : State) (w : World) :
  let fd := formData r in
  let e := validationResult r w in
  ((∃ c, c ∈ PatientFormData.nik fd ∧ ¬ 48 ≤ c ≤ 57)
   → is_Some (e !! "nik"%string))
  ∧ (PatientFormData.nama fd = js "Ana"
     → PatientFormData.nik fd = js "12AB"
     → PatientFormData.tanggal_lahir fd ≠ []
     → PatientFormData.jenis_kelamin fd ≠ []
     → trim (PatientFormData.alamat fd) ≠ []
     → trim (PatientFormData.no_telepon fd) ≠ []
     → PatientFormData.golongan_darah fd ≠ []
     → EmailOk fd
     → e = {[ "nik"%string := js "NIK hanya boleh berisi angka" ]}).
Proof.
  intros fd e. subst e. rewrite validationResult_newErrors. fold fd. split.
  - intros Hc. rewrite newErrors_nik.
    destruct (truthy (trim (PatientFormData.nik fd))); [|eauto].
    destruct (test nik_pattern (PatientFormData.nik fd)) eqn:Ht; [|eauto].
    apply test_nik_pattern in Ht as [_ Ht].
    by apply DigitsOnly_no_other in Hc.
  - intros Hnama Hnik E3 E4 E5 E6 E7 E8.
    apply truthy_true in E3, E4, E5, E6, E7. apply email_condition in E8.
    unfold newErrors. rewrite Hnama, Hnik, E3, E4, E5, E6, E7, E8.
    reflexivity.
Qed.

(** The scenario of C3 on a concrete draft. *)
Lemma validateForm_nik_digits_witness :
  validationResult
    (mkState [] false
       (PatientFormData.mk (js "Ana") (js "12AB") (js "2001-02-03")
          (js "Perempuan") (js "Jl. Melati 5") (js "081234567890") []
          (js "O"))
       ∅ None true [] [] [])
    (mkWorld initialState [])
  = {[ "nik"%string := js "NIK hanya boleh berisi angka" ]}.
Proof.
  apply validateForm_nik_digits; try done.
  by left.
Defined.

(** The empty e-mail has no ["@"] and no domain segment, yet it is not
    flagged: the field is optional. *)
Lemma email_absent_not_flagged :
  (AT ∉ PatientFormData.email (formData initialState))
  ∧ (¬ HasDomainSegment (PatientFormData.email (formData initialState)))
  ∧ validationResult initialState (mkWorld initialState []) !! "email"%string
    = None.
Proof.
  split_and!.
  - apply not_elem_of_nil.
  - intros (pre & y & post & H & _). simpl in H. by destruct pre.
  - vm_compute. reflexivity.
Qed.

(** C4, amended. The validator leaves the e-mail unflagged exactly when it
    is empty or has the shape [x@y.z]; so a well-shaped e-mail is never
    flagged, and a non-empty one without ["@"] or without a domain segment
    always is. *)
Theorem validateForm_email (r : State) (w : World) :
  let em := PatientFormData.email (formData r) in
  let e := validationResult r w in
  (EmailShape em → e !! "email"%string = None)
  ∧ (em ≠ [] → AT ∉ em ∨ ¬ HasDomainSegment em
     → e !! "email"%string = Some (js "Format email tidak valid"))
  ∧ (e !! "email"%string = None ↔ em = [] ∨ EmailShape em).
Proof.
  intros em e. subst e. rewrite validationResult_newErrors.
  rewrite newErrors_email. fold em.
  destruct (truthy em && negb (test email_pattern em)) eqn:E.
  - assert (¬ (em = [] ∨ EmailShape em)) as Hn.
    { intros H. apply email_condition in H. congruence. }
    split_and!; [tauto | done | split; [done | tauto]].
  - apply email_condition in E. split_and!; [done | | tauto].
    intros Hne [Hat | Hdom]; destruct E as [? | Hs]; try done.
    + by apply EmailShape_has_at in Hs.
    + by apply EmailShape_has_domain in Hs.
Qed.

(** ** The handlers *)

Section Handlers.
Variable svc : Service.

Lemma fetchPatients_fulfilled (w : World) (data : list Patient.t) :
  on_getAll svc (calls w) = Fulfilled data →
  fetchPatients svc w
  = (Normal tt,
     mkWorld
       (mkState data false (formData (ui w)) (errors (ui w))
          (editingId (ui w)) (showForm (ui w)) (successMessage (ui w))
          (errorMessage (ui w)) (searchKeyword (ui w)))
       (calls w ++ [GET_patients])).
Proof.
  intros H.
  unfold fetchPatients, try_finally, try_catch, bind, getAllPatients,
    request.
  simpl. by rewrite H.
Qed.

Lemma fetchPatients_rejected (w : World) (e : JsError) :
  on_getAll svc (calls w) = Rejected e →
  fetchPatients svc w
  = (Normal tt,
     mkWorld
       (mkState (patients (ui w)) false (formData (ui w)) (errors (ui w))
          (editingId (ui w)) (showForm (ui w)) (successMessage (ui w))
          (js "Gagal mengambil data pasien. Pastikan backend sudah berjalan.")
          (searchKeyword (ui w)))
       (calls w ++ [GET_patients])).
Proof.
  intros H.
  unfold fetchPatients, try_finally, try_catch, bind, getAllPatients,
    request.
  simpl. by rewrite H.
Qed.

(** A fetch never throws and always issues exactly one request. *)
Lemma fetchPatients_calls (w : World) :
  (fetchPatients svc w).1 = Normal tt
  ∧ calls (fetchPatients svc w).2 = calls w ++ [GET_patients].
Proof.
  destruct (on_getAll svc (calls w)) as [data|e] eqn:H.
  - by rewrite (fetchPatients_fulfilled _ _ H).
  - by rewrite (fetchPatients_rejected _ _ H).
Qed.
Lemma handleSubmit_invalid_run (r : State) (w : World) :
  newErrors (formData r) ≠ ∅ →
  handleSubmit svc r w = (Normal tt, mkWorld (validated r w) (calls w)).
Proof.
  intros H. unfold handleSubmit, bind. simpl.
  rewrite size_eqb_0, bool_decide_eq_false_2 by done. reflexivity.
Qed.

Lemma handleSubmit_rejected_run (r : State) (w : World) (e : JsError) :
  newErrors (formData r) = ∅ →
  submitReply svc r (calls w) = Rejected e →
  handleSubmit svc r w
  = (Normal tt,
     mkWorld
       (mkState (patients (ui w)) (loading (ui w)) (formData (ui w)) ∅
          (editingId (ui w)) (showForm (ui w)) [] (submitErrorMessage e)
          (searchKeyword (ui w)))
       (calls w ++ [submitCall r])).
Proof.
  intros Hv He. unfold handleSubmit, bind. simpl.
  rewrite size_eqb_0, bool_decide_eq_true_2 by done. simpl.
  unfold try_catch, bind, submitCall, submitReply in *.
  destruct (truthy_id (editingId r)) as [id|];
    unfold updatePatient, createPatient, request; simpl;
    rewrite He, Hv; reflexivity.
Qed.

Lemma handleSubmit_fulfilled_run (r : State) (w : World) (p : Patient.t) :
  newErrors (formData r) = ∅ →
  submitReply svc r (calls w) = Fulfilled p →
  handleSubmit svc r w
  = fetchPatients svc
      (mkWorld
         (mkState (patients (ui w)) (loading (ui w)) initialFormData ∅
            None false
            (match truthy_id (editingId r) with
             | Some _ => js "Data pasien berhasil diperbarui!"
             | None => js "Pasien baru berhasil ditambahkan!"
             end)
            [] (searchKeyword (ui w)))
         (calls w ++ [submitCall r])).
Proof.
  intros Hv He. unfold handleSubmit, bind. simpl.
  rewrite size_eqb_0, bool_decide_eq_true_2 by done. simpl.
  unfold try_catch, bind, submitCall, submitReply in *.
  destruct (truthy_id (editingId r)) as [id|];
    unfold updatePatient, createPatient, request; simpl;
    rewrite He, Hv; simpl;
    match goal with
    | |- context [fetchPatients svc ?w'] =>
        destruct (fetchPatients_calls w') as [Hn _];
        destruct (fetchPatients svc w') as [c w''] eqn:Hf;
        simpl in Hn; by subst c
    end.
Qed.

Lemma handleDelete_rejected_run (id : Z) (nama : jsstring) (w : World)
    (e : JsError) :
  on_delete svc (calls w) id = Rejected e →
  handleDelete svc id nama true w
  = (Normal tt,
     mkWorld
       (mkState (patients (ui w)) (loading (ui w)) (formData (ui w))
          (errors (ui w)) (editingId (ui w)) (showForm (ui w))
          (successMessage (ui w)) (js "Gagal menghapus data pasien")
          (searchKeyword (ui w)))
       (calls w ++ [DELETE_patients id])).
Proof.
  intros He. unfold handleDelete, try_catch, bind, deletePatient, request.
  simpl. by rewrite He.
Qed.

Lemma handleDelete_fulfilled_run (id : Z) (nama : jsstring) (w : World)
    (m : jsstring) :
  on_delete svc (calls w) id = Fulfilled m →
  handleDelete svc id nama true w
  = fetchPatients svc
      (mkWorld
         (mkState (patients (ui w)) (loading (ui w)) (formData (ui w))
            (errors (ui w)) (editingId (ui w)) (showForm (ui w))
            (js "Data pasien berhasil dihapus!") (errorMessage (ui w))
            (searchKeyword (ui w)))
         (calls w ++ [DELETE_patients id])).
Proof.
  intros He. unfold handleDelete, try_catch, bind, deletePatient, request.
  simpl. rewrite He. simpl.
  match goal with
  | |- context [fetchPatients svc ?w'] =>
      destruct (fetchPatients_calls w') as [Hn _];
      destruct (fetchPatients svc w') as [c w''] eqn:Hf;
      simpl in Hn; by subst c
  end.
Qed.
End Handlers.

(** ** Submitting, deleting and fetching *)

(** C6. When the validator reports an error the submit stops there: no
    request is issued, the mapping of errors is stored, and the entered
    values, the identifier being edited and the visibility of the form are
    what they were. *)
Theorem handleSubmit_invalid_aborts (svc : Service) (r : State) (w : World) :
  validationResult r w ≠ ∅ →
  let w' := (handleSubmit svc r w).2 in
  (handleSubmit svc r w).1 = Normal tt
  ∧ calls w' = calls w
  ∧ errors (ui w') = validationResult r w
  ∧ formData (ui w') = formData (ui w)
  ∧ editingId (ui w') = editingId (ui w)
  ∧ showForm (ui w') = showForm (ui w).
Proof.
  rewrite validationResult_newErrors. intros H w'. subst w'.
  by rewrite (handleSubmit_invalid_run svc r w H).
Qed.

Lemma handleSubmit_invalid_aborts_witness :
  let w := mkWorld initialState [] in
  let w' := (handleSubmit (acceptingService [budi]) initialState w).2 in
  calls w' = []
  ∧ errors (ui w') !! "nama"%string = Some (js "Nama tidak boleh kosong")
  ∧ formData (ui w') = initialFormData
  ∧ showForm (ui w') = false.
Proof.
  intros w w'.
  assert (validationResult initialState w ≠ ∅) as Hv.
  { intros H. apply (f_equal (λ m : FormErrors, m !! "nama"%string)) in H.
    vm_compute in H. discriminate H. }
  pose proof (handleSubmit_invalid_aborts (acceptingService [budi])
                initialState w Hv) as H.
  cbv zeta in H. destruct H as (_ & Hc & He & Hf & _ & Hs).
  subst w'. rewrite Hc, He, Hf, Hs.
  split_and!; [reflexivity | vm_compute; reflexivity | reflexivity..].
Defined.



(** C8. When the list fetch fails, the error banner is set to the one fixed
    message and the list in memory is the one held before, the empty list if
    nothing was ever fetched. *)
Theorem fetchPatients_failure (svc : Service) (w : World) (e : JsError) :
  on_getAll svc (calls w) = Rejected e →
  let w' := (fetchPatients svc w).2 in
  (fetchPatients svc w).1 = Normal tt
  ∧ errorMessage (ui w')
    = js "Gagal mengambil data pasien. Pastikan backend sudah berjalan."
  ∧ successMessage (ui w') = successMessage (ui w)
  ∧ patients (ui w') = patients (ui w)
  ∧ (ui w = initialState → patients (ui w') = [])
  ∧ loading (ui w') = false.
Proof.
  intros H w'. subst w'. rewrite (fetchPatients_rejected svc w e H). simpl.
  split_and!; try done. by intros ->.
Qed.

Lemma fetchPatients_failure_witness :
  let w := mkWorld initialState [] in
  let w' := (fetchPatients (rejectingService OtherError) w).2 in
  errorMessage (ui w')
  = js "Gagal mengambil data pasien. Pastikan backend sudah berjalan."
  ∧ patients (ui w') = [].
Proof.
  intros w w'.
  pose proof (fetchPatients_failure (rejectingService OtherError) w
                OtherError eq_refl) as H.
  cbv zeta in H. destruct H as (_ & Hm & _ & _ & Hp & _).
  subst w'. split; [exact Hm | apply Hp; reflexivity].
Defined.

Lemma refetch_after_snoc (t : list Call) (c : Call) :
  RefetchAfterEveryMutation t →
  RefetchAfterEveryMutation (t ++ [c; GET_patients]).
Proof.
  intros Ht i c' Hi Hm.
  destruct (decide (i < length t)%nat) as [Hlt|Hge].
  - rewrite lookup_app_l in Hi by done.
    apply lookup_app_l_Some. by apply (Ht i c').
  - rewrite lookup_app_r in Hi by lia.
    rewrite lookup_app_r by lia.
    destruct (i - length t)%nat as [|[|n]] eqn:E; simpl in Hi.
    + by replace (S i - length t)%nat with 1%nat by lia.
    + injection Hi as <-. discriminate Hm.
    + discriminate Hi.
Qed.

(** A create that the service rejects is the last request of the submit: no
    list fetch follows it. *)
Lemma rejected_create_no_refetch :
  let w := mkWorld filledForm [] in
  let w' := (handleSubmit (rejectingService nikExists) filledForm w).2 in
  RefetchAfterEveryMutation (calls w)
  ∧ calls w' = [POST_patients validDraft]
  ∧ (¬ RefetchAfterEveryMutation (calls w')).
Proof.
  cbv zeta.
  assert (calls (handleSubmit (rejectingService nikExists) filledForm
                   (mkWorld filledForm [])).2
          = [POST_patients validDraft]) as Hc.
  { rewrite (handleSubmit_rejected_run (rejectingService nikExists)
               filledForm (mkWorld filledForm []) nikExists).
    - reflexivity.
    - vm_compute. reflexivity.
    - reflexivity. }
  split_and!.
  - intros i c Hi. simpl in Hi. discriminate Hi.
  - exact Hc.
  - rewrite Hc. intros H.
    specialize (H 0%nat (POST_patients validDraft) eq_refl eq_refl).
    discriminate H.
Qed.

(** C7, amended. A create, update or delete that the service fulfils is
    followed at once by a fetch of the whole list, and the list in memory is
    then the fetched one when that fetch succeeds and the former one when it
    fails; a create, update or delete that the service rejects is followed
    by no fetch and leaves the list in memory as it was. *)
Theorem mutation_refetch (svc : Service) (w : World) :
  (∀ r p,
     validationResult r w = ∅ → submitReply svc r (calls w) = Fulfilled p →
     let w' := (handleSubmit svc r w).2 in
     calls w' = calls w ++ [submitCall r; GET_patients]
     ∧ (RefetchAfterEveryMutation (calls w)
        → RefetchAfterEveryMutation (calls w'))
     ∧ (∀ data, on_getAll svc (calls w ++ [submitCall r]) = Fulfilled data
                → patients (ui w') = data)
     ∧ (∀ e, on_getAll svc (calls w ++ [submitCall r]) = Rejected e
             → patients (ui w') = patients (ui w)))
  ∧ (∀ id nama m,
       on_delete svc (calls w) id = Fulfilled m →
       let w' := (handleDelete svc id nama true w).2 in
       calls w' = calls w ++ [DELETE_patients id; GET_patients]
       ∧ (RefetchAfterEveryMutation (calls w)
          → RefetchAfterEveryMutation (calls w'))
       ∧ (∀ data,
            on_getAll svc (calls w ++ [DELETE_patients id]) = Fulfilled data
            → patients (ui w') = data)
       ∧ (∀ e, on_getAll svc (calls w ++ [DELETE_patients id]) = Rejected e
               → patients (ui w') = patients (ui w)))
  ∧ (∀ r e,
       validationResult r w = ∅ → submitReply svc r (calls w) = Rejected e →
       let w' := (handleSubmit svc r w).2 in
       calls w' = calls w ++ [submitCall r]
       ∧ patients (ui w') = patients (ui w))
  ∧ (∀ id nama e,
       on_delete svc (calls w) id = Rejected e →
       let w' := (handleDelete svc id nama true w).2 in
       calls w' = calls w ++ [DELETE_patients id]
       ∧ patients (ui w') = patients (ui w)).
Proof.
  assert (∀ (w0 : World) (c : Call),
    let w' := (fetchPatients svc w0).2 in
    calls w0 = calls w ++ [c] →
    calls w' = calls w ++ [c; GET_patients]
    ∧ (RefetchAfterEveryMutation (calls w)
       → RefetchAfterEveryMutation (calls w'))
    ∧ (∀ data, on_getAll svc (calls w ++ [c]) = Fulfilled data
               → patients (ui w') = data)
    ∧ (∀ e, on_getAll svc (calls w ++ [c]) = Rejected e
            → patients (ui w') = patients (ui w0))) as Hfetch.
  { intros w0 c w' Hw0. subst w'.
    assert (calls (fetchPatients svc w0).2 = calls w ++ [c; GET_patients])
      as Hcalls.
    { rewrite (proj2 (fetchPatients_calls svc w0)), Hw0, <- app_assoc.
      reflexivity. }
    split_and!.
    - exact Hcalls.
    - rewrite Hcalls. apply refetch_after_snoc.
    - intros data Hd. rewrite <- Hw0 in Hd.
      by rewrite (fetchPatients_fulfilled svc w0 data Hd).
    - intros e He. rewrite <- Hw0 in He.
      by rewrite (fetchPatients_rejected svc w0 e He). }
  split_and!.
  - intros r p Hv Hp w'. subst w'.
    rewrite validationResult_newErrors in Hv.
    rewrite (handleSubmit_fulfilled_run svc r w p Hv Hp).
    match goal with
    | |- context [fetchPatients svc ?w0] =>
        destruct (Hfetch w0 (submitCall r) eq_refl) as (H1 & H2 & H3 & H4)
    end.
    split_and!; [done..|]. intros e He. by rewrite (H4 e He).
  - intros id nama m Hm w'. subst w'.
    rewrite (handleDelete_fulfilled_run svc id nama w m Hm).
    match goal with
    | |- context [fetchPatients svc ?w0] =>
        destruct (Hfetch w0 (DELETE_patients id) eq_refl)
          as (H1 & H2 & H3 & H4)
    end.
    split_and!; [done..|]. intros e He. by rewrite (H4 e He).
  - intros r e Hv He w'. subst w'.
    rewrite validationResult_newErrors in Hv.
    by rewrite (handleSubmit_rejected_run svc r w e Hv He).
  - intros id nama e He w'. subst w'.
    by rewrite (handleDelete_rejected_run svc id nama w e He).
Qed.

Lemma mutation_refetch_witness :
  let w := mkWorld filledForm [] in
  let w' := (handleSubmit (acceptingService [budi; sari]) filledForm w).2 in
  calls w' = [POST_patients validDraft; GET_patients]
  ∧ patients (ui w') = [budi; sari].
Proof.
  intros w w'.
  assert (validationResult filledForm w = ∅) as Hv.
  { vm_compute. reflexivity. }
  pose proof (proj1 (mutation_refetch (acceptingService [budi; sari]) w)
                filledForm budi Hv eq_refl) as H.
  cbv zeta in H. destruct H as (Hc & _ & Hd & _).
  subst w'. split; [exact Hc | apply Hd; reflexivity].
Defined.

(** ** The list filter *)

Lemma asciiLowerCase_lowers : lowers_ascii asciiLowerCase.
Proof. intros s _. reflexivity. Qed.

Lemma filter_idempotent {A} (f : A → bool) (l : list A) :
  List.filter f (List.filter f l) = List.filter f l.
Proof.
  induction l as [|x l IH]; simpl; [done|].
  destruct (f x) eqn:Hx; simpl; [|done].
  by rewrite Hx, IH.
Qed.

Lemma filter_sublist {A} (f : A → bool) (l : list A) :
  sublist (List.filter f l) l.
Proof.
  induction l as [|x l IH]; simpl; [constructor|].
  destruct (f x); by constructor.
Qed.

Lemma filter_elem_of {A} (f : A → bool) (l : list A) (x : A) :
  x ∈ List.filter f l ↔ x ∈ l ∧ f x = true.
Proof. rewrite !list_elem_of_In. apply filter_In. Qed.

Lemma filter_count_occ {A} (dec : ∀ x y : A, {x = y} + {x ≠ y})
    (f : A → bool) (l : list A) (x : A) :
  f x = true → count_occ dec (List.filter f l) x = count_occ dec l x.
Proof.
  intros Hx. induction l as [|y l IH]; simpl; [done|].
  destruct (f y) eqn:Hy; simpl.
  - destruct (dec y x); by rewrite IH.
  - destruct (dec y x) as [->|]; [congruence | done].
Qed.

Section FilterFacts.
Variable toLowerCase : jsstring → jsstring.

Lemma matchesKeyword_spec (kw : jsstring) (p : Patient.t) :
  matchesKeyword toLowerCase kw p = true
  ↔ Substring (toLowerCase kw) (toLowerCase (Patient.nama p))
    ∨ Substring kw (Patient.nik p).
Proof.
  unfold matchesKeyword, Substring.
  by rewrite orb_true_iff, !includes_spec.
Qed.

(** C9. Filtering with a keyword a list already filtered with that keyword
    gives the same list again. *)
Theorem filteredPatients_idempotent (patients : list Patient.t)
    (kw : jsstring) :
  filteredPatients toLowerCase (filteredPatients toLowerCase patients kw) kw
  = filteredPatients toLowerCase patients kw.
Proof. apply filter_idempotent. Qed.

(** C10. The filtered list is a subsequence of the source list: its
    records come from the source in the source's order, and a record that
    is kept is kept as many times as the source holds it. *)
Theorem filteredPatients_subsequence (patients : list Patient.t)
    (kw : jsstring) :
  sublist (filteredPatients toLowerCase patients kw) patients
  ∧ (∀ p, p ∈ filteredPatients toLowerCase patients kw → p ∈ patients)
  ∧ (∀ p, p ∈ filteredPatients toLowerCase patients kw →
          count_occ Patient_eq_dec
            (filteredPatients toLowerCase patients kw) p
          = count_occ Patient_eq_dec patients p).
Proof.
  unfold filteredPatients. split_and!.
  - apply filter_sublist.
  - intros p Hp. by apply filter_elem_of in Hp as [? _].
  - intros p Hp. apply filter_elem_of in Hp as [_ Hp].
    by apply filter_count_occ.
Qed.

Hypothesis toLowerCase_ascii : lowers_ascii toLowerCase.

Lemma toLowerCase_nil : toLowerCase [] = [].
Proof. by rewrite toLowerCase_ascii. Qed.

End FilterFacts.


(** The empty draft: every required field gets its entry. *)
Lemma validateForm_required_fields_witness :
  let e := validationResult initialState (mkWorld initialState []) in
  is_Some (e !! "nama"%string) ∧ is_Some (e !! "golongan_darah"%string).
Proof.
  pose proof (validateForm_required_fields initialState
                (mkWorld initialState [])) as H.
  cbv zeta in H. destruct H as (_ & H1 & _ & _ & _ & _ & _ & H7 & _).
  split; [apply H1 | apply H7]; reflexivity.
Defined.

(** A well-shaped e-mail is accepted, one without ["@"] is flagged. *)
Lemma validateForm_email_witness :
  validationResult filledForm (mkWorld filledForm []) !! "email"%string = None
  ∧ validationResult
      (mkState [] false
         (PatientFormData.mk [] [] [] [] [] [] (js "budi.mail.id") [])
         ∅ None true [] [] [])
      (mkWorld initialState []) !! "email"%string
    = Some (js "Format email tidak valid").
Proof.
  split.
  - apply (proj1 (validateForm_email filledForm (mkWorld filledForm []))).
    exists (js "budi"), (js "mail"), (js "id").
    split_and!; try done; vm_compute; repeat constructor; discriminate.
  - apply (proj1 (proj2 (validateForm_email _ _))); [done|].
    left. vm_compute. intros H.
    repeat (apply elem_of_cons in H as [H|H]; [discriminate H|]).
    by apply not_elem_of_nil in H.
Defined.

(** * Further properties of the page *)

(** ** The validator, field by field *)

Lemma digit_not_whitespace (c : N) : 48 ≤ c ≤ 57 → is_whitespace c = false.
Proof.
  intros Hc. unfold is_whitespace.
  repeat (apply orb_false_iff; split);
    try (apply N.eqb_neq; lia).
  apply andb_false_iff. left. apply N.leb_gt. lia.
Qed.

Lemma digits_not_blank (s : jsstring) :
  s ≠ [] → DigitsOnly s → trim s ≠ [].
Proof.
  intros Hne Hd Ht. apply trim_nil in Ht.
  destruct s as [|c s]; [done|].
  inversion Hd as [|? ? Hc _]; subst. inversion Ht as [|? ? Hw _]; subst.
  rewrite (digit_not_whitespace c Hc) in Hw. discriminate Hw.
Qed.

Lemma truthy_trim_false (s : jsstring) :
  truthy (trim s) = false ↔ Forall (λ c, is_whitespace c = true) s.
Proof. by rewrite truthy_false, trim_nil. Qed.

(** X1. The verdict on the identity number: it passes exactly when it is a
    non-empty string of digits, of any length; it gets the "empty" message
    exactly when it is blank (empty or white space only), and the "digits
    only" message exactly when it is neither blank nor digits only, which
    includes digits surrounded by spaces. *)
Theorem validateForm_nik_verdict (r : State) (w : World) :
  let nik := PatientFormData.nik (formData r) in
  let e := validationResult r w in
  (e !! "nik"%string = None ↔ nik ≠ [] ∧ DigitsOnly nik)
  ∧ (e !! "nik"%string = Some (js "NIK tidak boleh kosong")
     ↔ Forall (λ c, is_whitespace c = true) nik)
  ∧ (e !! "nik"%string = Some (js "NIK hanya boleh berisi angka")
     ↔ (¬ Forall (λ c, is_whitespace c = true) nik) ∧ ¬ DigitsOnly nik).
Proof.
  intros nik e. subst e. rewrite validationResult_newErrors, newErrors_nik.
  fold nik.
  destruct (truthy (trim nik)) eqn:Ht.
  - assert (¬ Forall (λ c, is_whitespace c = true) nik) as Hnb.
    { intros H. apply truthy_trim_false in H. congruence. }
    assert (nik ≠ []) as Hne by (intros ->; by apply Hnb).
    destruct (test nik_pattern nik) eqn:Hp.
    + apply test_nik_pattern in Hp as [_ Hd].
      split_and!; split; try done; tauto.
    + assert (¬ DigitsOnly nik) as Hnd.
      { intros Hd.
        assert (test nik_pattern nik = true) by by apply test_nik_pattern.
        congruence. }
      split_and!; split; try done; try tauto;
        try (intros [= H]; vm_compute in H; discriminate H).
  - pose proof (proj1 (truthy_trim_false nik) Ht) as Hb.
    split_and!; split; try done; try tauto;
      try (intros [= H]; vm_compute in H; discriminate H).
    intros [Hne Hd]. apply truthy_false in Ht.
    by apply digits_not_blank in Hd.
Qed.

(** X2. The three free-text fields name, address and phone are flagged
    exactly when they are blank (empty or white space only), so any other
    phone value passes unchecked; the date and the two selections are
    flagged exactly when they are empty, so a value of white space only
    passes. *)
Theorem validateForm_blank_fields (r : State) (w : World) :
  let fd := formData r in
  let e := validationResult r w in
  (is_Some (e !! "nama"%string)
   ↔ Forall (λ c, is_whitespace c = true) (PatientFormData.nama fd))
  ∧ (is_Some (e !! "alamat"%string)
     ↔ Forall (λ c, is_whitespace c = true) (PatientFormData.alamat fd))
  ∧ (is_Some (e !! "no_telepon"%string)
     ↔ Forall (λ c, is_whitespace c = true) (PatientFormData.no_telepon fd))
  ∧ (is_Some (e !! "tanggal_lahir"%string)
     ↔ PatientFormData.tanggal_lahir fd = [])
  ∧ (is_Some (e !! "jenis_kelamin"%string)
     ↔ PatientFormData.jenis_kelamin fd = [])
  ∧ (is_Some (e !! "golongan_darah"%string)
     ↔ PatientFormData.golongan_darah fd = []).
Proof.
  intros fd e. subst e. rewrite validationResult_newErrors. fold fd.
  rewrite newErrors_nama, newErrors_alamat, newErrors_no_telepon,
    newErrors_tanggal_lahir, newErrors_jenis_kelamin,
    newErrors_golongan_darah.
  rewrite <- !truthy_trim_false, <- !truthy_false.
  split_and!;
    match goal with |- context [truthy ?s] => destruct (truthy s) end;
    split; (done || eauto || by intros []).
Qed.

Lemma count_AT_plain (s : jsstring) :
  Forall plain s → count_occ N.eq_dec s AT = 0%nat.
Proof.
  intros H. apply count_occ_not_In. intros Hin.
  rewrite Forall_forall in H. apply list_elem_of_In in Hin.
  by destruct (H _ Hin) as [_ ?].
Qed.

Lemma plain_not_whitespace (s : jsstring) :
  Forall plain s → Forall (λ c, is_whitespace c = false) s.
Proof. intros H. eapply Forall_impl; [done|]. by intros c [? _]. Qed.

(** X3. An e-mail the validator lets pass, when there is one, holds exactly
    one ["@"], no white space at all, and at least five characters. *)
Theorem validateForm_email_accepted (r : State) (w : World) :
  let em := PatientFormData.email (formData r) in
  validationResult r w !! "email"%string = None →
  em ≠ [] →
  count_occ N.eq_dec em AT = 1%nat
  ∧ Forall (λ c, is_whitespace c = false) em
  ∧ (5 ≤ length em)%nat.
Proof.
  intros em He Hne.
  rewrite validationResult_newErrors, newErrors_email in He. fold em in He.
  destruct (truthy em && negb (test email_pattern em)) eqn:Hc;
    [discriminate He|].
  apply email_condition in Hc as [Hc|Hc]; [done|].
  destruct Hc as (x & y & z & Hs & Hx & Hy & Hz & Px & Py & Pz).
  rewrite Hs. split_and!.
  - rewrite count_occ_app. simpl. rewrite count_occ_app. simpl.
    rewrite !count_AT_plain by done.
    destruct (N.eq_dec AT AT); [|done].
    destruct (N.eq_dec DOT AT) as [Hd|]; [discriminate Hd | done].
  - apply Forall_app. split; [by apply plain_not_whitespace|].
    constructor; [reflexivity|].
    apply Forall_app. split; [by apply plain_not_whitespace|].
    constructor; [reflexivity | by apply plain_not_whitespace].
  - rewrite length_app. simpl. rewrite length_app. simpl.
    destruct x, y, z; simpl; try done; lia.
Qed.

Lemma field_keys_cover (k : string) :
  k ∈ ["nama"; "nik"; "tanggal_lahir"; "jenis_kelamin"; "alamat";
       "no_telepon"; "golongan_darah"; "email"]%string
  ↔ ∃ f, k = field_key f.
Proof.
  split.
  - intros H. set_unfold in H.
    destruct H as [->|[->|[->|[->|[->|[->|[->|[->|[]]]]]]]]].
    + by exists f_nama.
    + by exists f_nik.
    + by exists f_tanggal_lahir.
    + by exists f_jenis_kelamin.
    + by exists f_alamat.
    + by exists f_no_telepon.
    + by exists f_golongan_darah.
    + by exists f_email.
  - intros [f ->]. destruct f; set_solver.
Qed.

(** Every message the validator can record is a non-empty string. *)
Lemma newErrors_message_truthy (fd : PatientFormData.t) (f : FieldName)
    (m : jsstring) :
  newErrors fd !! field_key f = Some m → truthy m = true.
Proof.
  destruct f; simpl;
    rewrite ?newErrors_nama, ?newErrors_nik, ?newErrors_tanggal_lahir,
      ?newErrors_jenis_kelamin, ?newErrors_alamat, ?newErrors_no_telepon,
      ?newErrors_email, ?newErrors_golongan_darah;
    repeat match goal with |- context [if ?b then _ else _] => destruct b end;
    intros [= <-]; reflexivity.
Qed.

(** X4. The mapping of the validator has no key other than the eight field
    names, and each of its entries is rendered: the error paragraph of a
    field is shown exactly when the mapping has an entry for it. *)
Theorem validateForm_entries_shown (r : State) (w : World) (k : string) :
  let e := validationResult r w in
  (is_Some (e !! k) ↔ errorShown e k = true)
  ∧ (errorShown e k = true → ∃ f, k = field_key f).
Proof.
  intros e. subst e. rewrite validationResult_newErrors.
  unfold errorShown, error_of.
  destruct (decide (k ∈ ["nama"; "nik"; "tanggal_lahir"; "jenis_kelamin";
                         "alamat"; "no_telepon"; "golongan_darah";
                         "email"]%string)) as [Hk|Hk].
  - apply field_keys_cover in Hk as [f ->].
    split; [|eauto].
    destruct (newErrors (formData r) !! field_key f) as [m|] eqn:Hm; simpl.
    + rewrite (newErrors_message_truthy _ _ _ Hm). split; eauto.
    + split; [by intros [] | done].
  - rewrite (newErrors_other _ _ Hk). simpl.
    split; [split; [by intros [] | done] | done].
Qed.

(** X5. The verdict on a field depends on the value of that field alone:
    two drafts that agree on a field get the same entry, or none, for it. *)
Theorem validateForm_field_local (r r' : State) (w w' : World)
    (f : FieldName) :
  get_field f (formData r) = get_field f (formData r') →
  validationResult r w !! field_key f
  = validationResult r' w' !! field_key f.
Proof.
  rewrite !validationResult_newErrors.
  destruct f; simpl; intros H;
    rewrite ?newErrors_nama, ?newErrors_nik, ?newErrors_tanggal_lahir,
      ?newErrors_jenis_kelamin, ?newErrors_alamat, ?newErrors_no_telepon,
      ?newErrors_email, ?newErrors_golongan_darah;
    by rewrite H.
Qed.

Lemma validateForm_field_local_witness :
  validationResult filledForm (mkWorld filledForm []) !! "nik"%string
  = validationResult
      (mkState [] false
         (PatientFormData.mk [] (js "3201234567890001") [] [] [] [] [] [])
         ∅ None true [] [] [])
      (mkWorld initialState []) !! "nik"%string.
Proof.
  apply (validateForm_field_local filledForm _ _ _ f_nik). reflexivity.
Defined.

Lemma validateForm_email_accepted_witness :
  count_occ N.eq_dec (js "budi@mail.id") AT = 1%nat
  ∧ Forall (λ c, is_whitespace c = false) (js "budi@mail.id")
  ∧ (5 ≤ length (js "budi@mail.id"))%nat.
Proof.
  apply (validateForm_email_accepted filledForm (mkWorld filledForm [])).
  - vm_compute. reflexivity.
  - discriminate.
Defined.

(** ** Fetching, submitting and deleting: what else they change *)

(** X6. A list fetch never throws and issues exactly one request; it leaves
    the form, the success banner and the search keyword alone and always
    ends with the loading flag off.  When the service answers, the list is
    replaced by the answer and the error banner is not touched: a banner
    left by an earlier failure stays. *)
Theorem fetchPatients_outcome (svc : Service) (w : World) :
  let w' := after (fetchPatients svc) w in
  (fetchPatients svc w).1 = Normal tt
  ∧ calls w' = calls w ++ [GET_patients]
  ∧ loading (ui w') = false
  ∧ formData (ui w') = formData (ui w)
  ∧ errors (ui w') = errors (ui w)
  ∧ editingId (ui w') = editingId (ui w)
  ∧ showForm (ui w') = showForm (ui w)
  ∧ successMessage (ui w') = successMessage (ui w)
  ∧ searchKeyword (ui w') = searchKeyword (ui w)
  ∧ (∀ data, on_getAll svc (calls w) = Fulfilled data
             → patients (ui w') = data
               ∧ errorMessage (ui w') = errorMessage (ui w)).
Proof.
  intros w'. subst w'. unfold after.
  destruct (on_getAll svc (calls w)) as [data|e] eqn:H.
  - rewrite (fetchPatients_fulfilled svc w data H). simpl.
    split_and!; try done. by intros ? [= <-].
  - rewrite (fetchPatients_rejected svc w e H). simpl.
    split_and!; done.
Qed.

(** X7. A submit that the service fulfils empties and closes the form,
    forgets the identifier being edited, keeps no field error, and shows
    the "updated" banner when a non-zero identifier was being edited and
    the "added" banner otherwise.  The error banner is then empty when the
    list fetch that follows succeeds, and holds the fetch-failure message,
    beside the success banner, when that fetch fails. *)
Theorem handleSubmit_success_resets (svc : Service) (r : State) (w : World)
    (p : Patient.t) :
  validationResult r w = ∅ →
  submitReply svc r (calls w) = Fulfilled p →
  let w' := after (handleSubmit svc r) w in
  formData (ui w') = initialFormData
  ∧ editingId (ui w') = None
  ∧ showForm (ui w') = false
  ∧ errors (ui w') = ∅
  ∧ loading (ui w') = false
  ∧ successMessage (ui w')
    = match truthy_id (editingId r) with
      | Some _ => js "Data pasien berhasil diperbarui!"
      | None => js "Pasien baru berhasil ditambahkan!"
      end
  ∧ (∀ data, on_getAll svc (calls w ++ [submitCall r]) = Fulfilled data
             → errorMessage (ui w') = [])
  ∧ (∀ e, on_getAll svc (calls w ++ [submitCall r]) = Rejected e
          → errorMessage (ui w')
            = js "Gagal mengambil data pasien. Pastikan backend sudah berjalan.").
Proof.
  rewrite validationResult_newErrors. intros Hv Hp w'. subst w'. unfold after.
  rewrite (handleSubmit_fulfilled_run svc r w p Hv Hp).
  match goal with
  | |- context [fetchPatients svc ?w0] =>
      destruct (on_getAll svc (calls w0)) as [data|e] eqn:H;
      [rewrite (fetchPatients_fulfilled svc w0 data H)
      |rewrite (fetchPatients_rejected svc w0 e H)]
  end; simpl in *; split_and!; try done; intros ? H'; congruence.
Qed.

Lemma handleSubmit_success_resets_witness :
  let w := mkWorld filledForm [] in
  let w' := after (handleSubmit (acceptingService [budi]) filledForm) w in
  formData (ui w') = initialFormData
  ∧ showForm (ui w') = false
  ∧ successMessage (ui w') = js "Pasien baru berhasil ditambahkan!"
  ∧ errorMessage (ui w') = [].
Proof.
  intros w w'.
  assert (validationResult filledForm w = ∅) as Hv.
  { vm_compute. reflexivity. }
  pose proof (handleSubmit_success_resets (acceptingService [budi])
                filledForm w budi Hv eq_refl) as H.
  cbv zeta in H. destruct H as (Hf & _ & Hs & _ & _ & Hm & He & _).
  subst w'. split_and!; [exact Hf | exact Hs | exact Hm |].
  apply (He [budi]). reflexivity.
Defined.

Lemma fetchPatients_successMessage (svc : Service) (w : World) :
  successMessage (ui (fetchPatients svc w).2) = successMessage (ui w).
Proof.
  destruct (on_getAll svc (calls w)) as [data|e] eqn:H.
  - by rewrite (fetchPatients_fulfilled svc w data H).
  - by rewrite (fetchPatients_rejected svc w e H).
Qed.

(** X8. After a submit the success banner is shown exactly when the draft
    passed validation and the service fulfilled the request; a banner left
    by an earlier success is gone after a submit that fails either way. *)
Theorem handleSubmit_success_banner (svc : Service) (r : State) (w : World) :
  truthy (successMessage (ui (after (handleSubmit svc r) w))) = true
  ↔ validationResult r w = ∅
    ∧ ∃ p, submitReply svc r (calls w) = Fulfilled p.
Proof.
  rewrite validationResult_newErrors. unfold after.
  destruct (decide (newErrors (formData r) = ∅)) as [Hv|Hv].
  - destruct (submitReply svc r (calls w)) as [p|e] eqn:Hp.
    + rewrite (handleSubmit_fulfilled_run svc r w p Hv Hp).
      rewrite fetchPatients_successMessage. simpl.
      split; [eauto|]. intros _. by destruct (truthy_id (editingId r)).
    + rewrite (handleSubmit_rejected_run svc r w e Hv Hp). simpl.
      split; [done | by intros [_ [? ?]]].
  - rewrite (handleSubmit_invalid_run svc r w Hv). simpl.
    split; [done | by intros [? _]].
Qed.

(** X9. A delete never touches the form, its errors, the identifier being
    edited or the search keyword.  Declined at the confirmation, it issues
    no request and changes nothing.  Confirmed and rejected by the service,
    it sets the error banner and keeps the success banner as it was;
    confirmed and fulfilled, it sets the success banner. *)
Theorem handleDelete_outcome (svc : Service) (id : Z) (nama : jsstring)
    (confirmed : bool) (w : World) :
  let w' := after (handleDelete svc id nama confirmed) w in
  (handleDelete svc id nama confirmed w).1 = Normal tt
  ∧ formData (ui w') = formData (ui w)
  ∧ errors (ui w') = errors (ui w)
  ∧ editingId (ui w') = editingId (ui w)
  ∧ showForm (ui w') = showForm (ui w)
  ∧ searchKeyword (ui w') = searchKeyword (ui w)
  ∧ (confirmed = false → w' = w)
  ∧ (∀ e, confirmed = true → on_delete svc (calls w) id = Rejected e
          → errorMessage (ui w') = js "Gagal menghapus data pasien"
            ∧ successMessage (ui w') = successMessage (ui w))
  ∧ (∀ m, confirmed = true → on_delete svc (calls w) id = Fulfilled m
          → successMessage (ui w') = js "Data pasien berhasil dihapus!").
Proof.
  intros w'. subst w'. unfold after. destruct confirmed.
  - destruct (on_delete svc (calls w) id) as [m|e] eqn:H.
    + rewrite (handleDelete_fulfilled_run svc id nama w m H).
      match goal with
      | |- context [fetchPatients svc ?w0] =>
          destruct (on_getAll svc (calls w0)) as [data|e] eqn:Hg;
          [rewrite (fetchPatients_fulfilled svc w0 data Hg)
          |rewrite (fetchPatients_rejected svc w0 e Hg)]
      end; simpl; split_and!; done.
    + rewrite (handleDelete_rejected_run svc id nama w e H). simpl.
      split_and!; done.
  - simpl. split_and!; done.
Qed.

(** ** Loading a record into the form *)

Lemma split_head (sep : N) (s : jsstring) :
  (sep ∉ hd [] (split sep s))
  ∧ (s = hd [] (split sep s)
     ∨ ∃ rest, s = hd [] (split sep s) ++ sep :: rest).
Proof.
  induction s as [|c s [IH1 IH2]]; simpl.
  - split; [apply not_elem_of_nil | by left].
  - destruct (c =? sep) eqn:Hc.
    + apply N.eqb_eq in Hc as ->. simpl.
      split; [apply not_elem_of_nil | right; by exists s].
    + apply N.eqb_neq in Hc.
      destruct (split sep s) as [|x xs]; simpl in *.
      * split; [by apply not_elem_of_cons; split|].
        destruct IH2 as [->|[rest ->]]; [by left | right; by exists rest].
      * split; [by apply not_elem_of_cons; split|].
        destruct IH2 as [->|[rest ->]]; [by left | right; by exists rest].
Qed.

Lemma or_empty_default (a : option jsstring) : or_empty a = default [] a.
Proof. by destruct a as [[|c v]|]. Qed.

(** X10. Editing a record issues no request, opens the form with no field
    error and remembers the record's identifier.  The draft takes the
    record's fields as they are, except that the date of birth is cut at
    its first ["T"] (kept whole when it has none) and a missing e-mail
    becomes the empty string.  The list and the banners are untouched. *)
Theorem handleEdit_loads_record (patient : Patient.t) (w : World) :
  let w' := after (handleEdit patient) w in
  let fd := formData (ui w') in
  calls w' = calls w
  ∧ editingId (ui w') = Some (Patient.id patient)
  ∧ showForm (ui w') = true
  ∧ errors (ui w') = ∅
  ∧ PatientFormData.nama fd = Patient.nama patient
  ∧ PatientFormData.nik fd = Patient.nik patient
  ∧ PatientFormData.jenis_kelamin fd = Patient.jenis_kelamin patient
  ∧ PatientFormData.alamat fd = Patient.alamat patient
  ∧ PatientFormData.no_telepon fd = Patient.no_telepon patient
  ∧ PatientFormData.golongan_darah fd = Patient.golongan_darah patient
  ∧ PatientFormData.email fd = default [] (Patient.email patient)
  ∧ (LETTER_T ∉ PatientFormData.tanggal_lahir fd)
  ∧ (Patient.tanggal_lahir patient = PatientFormData.tanggal_lahir fd
     ∨ ∃ rest, Patient.tanggal_lahir patient
               = PatientFormData.tanggal_lahir fd ++ LETTER_T :: rest)
  ∧ patients (ui w') = patients (ui w)
  ∧ successMessage (ui w') = successMessage (ui w)
  ∧ errorMessage (ui w') = errorMessage (ui w).
Proof.
  intros w' fd. subst fd w'. unfold after. simpl.
  destruct (split_head LETTER_T (Patient.tanggal_lahir patient)) as [H1 H2].
  split_and!; try done. apply or_empty_default.
Qed.

(** X11. Editing a record and submitting the draft it loads, when that
    draft passes validation, sends an update for the record's identifier
    carrying that draft; unless the identifier is 0, which the submit takes
    for "nothing being edited": it then sends a create. *)
Theorem edit_then_submit (svc : Service) (patient : Patient.t) (w : World) :
  let w1 := after (handleEdit patient) w in
  validationResult (ui w1) w1 = ∅ →
  calls (after (dispatch (handleSubmit svc)) w1) !! length (calls w)
  = Some (if (Patient.id patient =? 0)%Z
          then POST_patients (formData (ui w1))
          else PATCH_patients (Patient.id patient) (formData (ui w1))).
Proof.
  intros w1 Hv. rewrite validationResult_newErrors in Hv.
  unfold after, dispatch.
  assert (calls w1 = calls w) as Hc by reflexivity.
  assert (submitCall (ui w1)
          = if (Patient.id patient =? 0)%Z
            then POST_patients (formData (ui w1))
            else PATCH_patients (Patient.id patient) (formData (ui w1)))
    as Hs.
  { unfold submitCall. simpl. by destruct (Patient.id patient =? 0)%Z. }
  rewrite <- Hs.
  destruct (submitReply svc (ui w1) (calls w1)) as [p|e] eqn:Hp.
  - rewrite (handleSubmit_fulfilled_run svc (ui w1) w1 p Hv Hp).
    rewrite (proj2 (fetchPatients_calls svc _)). cbn [calls].
    rewrite Hc, <- app_assoc. by apply list_lookup_middle.
  - rewrite (handleSubmit_rejected_run svc (ui w1) w1 e Hv Hp). cbn [calls snd].
    rewrite Hc. by apply list_lookup_middle.
Qed.

Lemma edit_then_submit_witness :
  calls (after (dispatch (handleSubmit (acceptingService [budi])))
           (after (handleEdit budi) (mkWorld initialState [])))
    !! 0%nat
  = Some (PATCH_patients 1 validDraft).
Proof.
  apply (edit_then_submit (acceptingService [budi]) budi
           (mkWorld initialState [])).
  vm_compute. reflexivity.
Defined.

(** ** Typing in the form, opening and closing it *)

Lemma get_set_field (f : FieldName) (v : jsstring) (fd : PatientFormData.t) :
  get_field f (set_field f v fd) = v.
Proof. by destruct fd, f. Qed.

Lemma get_set_field_ne (f g : FieldName) (v : jsstring)
    (fd : PatientFormData.t) :
  g ≠ f → get_field g (set_field f v fd) = get_field g fd.
Proof. by destruct fd, f, g. Qed.

(** X12. Typing a value in a field issues no request and stores the value
    in that field of the draft, the other seven keeping theirs.  The error
    of that field is no longer shown afterwards, the entries of the other
    fields are as before, and no key is added to or removed from the
    mapping of errors: a shown message is blanked, not deleted. *)
Theorem handleInputChange_outcome (name : FieldName) (value : jsstring)
    (w : World) :
  let w' := after (dispatch (λ r, handleInputChange r name value)) w in
  calls w' = calls w
  ∧ get_field name (formData (ui w')) = value
  ∧ (∀ g, g ≠ name
          → get_field g (formData (ui w')) = get_field g (formData (ui w)))
  ∧ errorShown (errors (ui w')) (field_key name) = false
  ∧ (∀ k, k ≠ field_key name → errors (ui w') !! k = errors (ui w) !! k)
  ∧ dom (errors (ui w')) = dom (errors (ui w))
  ∧ editingId (ui w') = editingId (ui w)
  ∧ showForm (ui w') = showForm (ui w)
  ∧ patients (ui w') = patients (ui w)
  ∧ successMessage (ui w') = successMessage (ui w)
  ∧ errorMessage (ui w') = errorMessage (ui w).
Proof.
  intros w'. subst w'.
  unfold after, dispatch, handleInputChange, bind, updateFormData, modify.
  cbn [fst snd ui calls].
  destruct (truthy (error_of (errors (ui w)) (field_key name))) eqn:Ht;
    unfold updateErrors, modify, ret; cbn [fst snd ui calls formData errors
      editingId showForm patients successMessage errorMessage].
  - split_and!; try done.
    + apply get_set_field.
    + intros g Hg. by apply get_set_field_ne.
    + unfold errorShown, error_of. by rewrite lookup_insert_eq.
    + intros k Hk. by rewrite lookup_insert_ne.
    + rewrite dom_insert_L.
      assert (field_key name ∈ dom (errors (ui w))) as Hin.
      { apply elem_of_dom. unfold error_of in Ht.
        destruct (errors (ui w) !! field_key name); [eauto | done]. }
      by apply subseteq_union_1_L, singleton_subseteq_l.
  - split_and!; try done.
    + apply get_set_field.
    + intros g Hg. by apply get_set_field_ne.
Qed.

Lemma newErrors_initialFormData : newErrors initialFormData ≠ ∅.
Proof.
  intros H. apply (f_equal (λ m : FormErrors, m !! "nama"%string)) in H.
  vm_compute in H. discriminate H.
Qed.

(** X13. The button that opens or closes the form flips its visibility and,
    like "Batal", which closes it, empties the draft, forgets the identifier
    being edited and drops the field errors, without any request; pressing
    it twice restores the visibility.  A submit made right after either
    button issues no request, the empty draft failing validation. *)
Theorem form_buttons_reset (svc : Service) (w : World) :
  let wt := after (dispatch toggleForm) w in
  let wc := after cancelForm w in
  (showForm (ui wt) = negb (showForm (ui w)) ∧ showForm (ui wc) = false)
  ∧ showForm (ui (after (dispatch toggleForm) wt)) = showForm (ui w)
  ∧ (formData (ui wt) = initialFormData ∧ formData (ui wc) = initialFormData)
  ∧ (editingId (ui wt) = None ∧ editingId (ui wc) = None)
  ∧ (errors (ui wt) = ∅ ∧ errors (ui wc) = ∅)
  ∧ (calls wt = calls w ∧ calls wc = calls w)
  ∧ (patients (ui wt) = patients (ui w) ∧ patients (ui wc) = patients (ui w))
  ∧ calls (after (dispatch (handleSubmit svc)) wt) = calls w
  ∧ calls (after (dispatch (handleSubmit svc)) wc) = calls w.
Proof.
  intros wt wc. subst wt wc. unfold after, dispatch.
  rewrite (handleSubmit_invalid_run svc (ui (toggleForm (ui w) w).2)
             (toggleForm (ui w) w).2 newErrors_initialFormData).
  rewrite (handleSubmit_invalid_run svc (ui (cancelForm w).2)
             (cancelForm w).2 newErrors_initialFormData).
  split_and!; try done.
  simpl. apply negb_involutive.
Qed.

(** ** The banner of a rejected submit *)

Lemma Substring_refl (s : jsstring) : Substring s s.
Proof. exists [], []. by rewrite app_nil_r. Qed.

Lemma Substring_trans (a b c : jsstring) :
  Substring a b → Substring b c → Substring a c.
Proof.
  intros (p1 & q1 & ->) (p2 & q2 & ->).
  exists (p2 ++ p1), (q1 ++ q2). by rewrite <- !app_assoc.
Qed.

Lemma join_substring (sep x : jsstring) (l : list jsstring) :
  x ∈ l → Substring x (join sep l).
Proof.
  induction l as [|y l IH]; [by intros ?%not_elem_of_nil|].
  intros Hx. destruct l as [|z l].
  - apply list_elem_of_singleton in Hx as ->. apply Substring_refl.
  - change (join sep (y :: z :: l)) with (y ++ sep ++ join sep (z :: l)).
    apply elem_of_cons in Hx as [->|Hx].
    + by exists [], (sep ++ join sep (z :: l)).
    + destruct (IH Hx) as (pre & post & ->).
      exists (y ++ sep ++ pre), post. by rewrite <- !app_assoc.
Qed.

(** X14. When a create or an update is rejected with a list of field-level
    errors, each of them can be read in the banner; when that list is empty
    the banner text is empty, so no banner is rendered for the failure. *)
Theorem handleSubmit_banner_lists_errors (svc : Service) (r : State)
    (w : World) (apiError : ApiError.t) (errs : list jsstring) :
  validationResult r w = ∅ →
  submitReply svc r (calls w) = Rejected (AxiosError (Some apiError)) →
  ApiError.errors apiError = Some errs →
  let banner := errorMessage (ui (after (handleSubmit svc r) w)) in
  (∀ x, x ∈ errs → Substring x banner)
  ∧ (errs = [] → truthy banner = false).
Proof.
  rewrite validationResult_newErrors. intros Hv Hr He banner. subst banner.
  unfold after. rewrite (handleSubmit_rejected_run svc r w _ Hv Hr).
  simpl. rewrite He. split.
  - intros x Hx. by apply join_substring.
  - by intros ->.
Qed.

Lemma handleSubmit_banner_lists_errors_witness :
  Substring (js "NIK already exists")
    (errorMessage
       (ui (after (handleSubmit (rejectingService nikExists) filledForm)
              (mkWorld filledForm [])))).
Proof.
  assert (validationResult filledForm (mkWorld filledForm []) = ∅) as Hv.
  { vm_compute. reflexivity. }
  pose proof (handleSubmit_banner_lists_errors (rejectingService nikExists)
                filledForm (mkWorld filledForm [])
                (ApiError.mk false 409 (js "Conflict")
                   (Some [js "NIK already exists"]))
                [js "NIK already exists"] Hv eq_refl eq_refl) as H.
  cbv zeta in H. apply (proj1 H). apply list_elem_of_singleton. reflexivity.
Defined.

(** ** The filter and the keyword *)

Lemma filter_filter_impl {A} (f g : A → bool) (l : list A) :
  (∀ x, f x = true → g x = true) →
  List.filter f (List.filter g l) = List.filter f l.
Proof.
  intros H. induction l as [|x l IH]; simpl; [done|].
  destruct (g x) eqn:Hg; simpl.
  - by rewrite IH.
  - destruct (f x) eqn:Hf; [|done]. apply H in Hf. congruence.
Qed.

Lemma filter_comm {A} (f g : A → bool) (l : list A) :
  List.filter f (List.filter g l) = List.filter g (List.filter f l).
Proof.
  induction l as [|x l IH]; simpl; [done|].
  destruct (g x) eqn:Hg, (f x) eqn:Hf; simpl; rewrite ?Hg, ?Hf, ?IH; done.
Qed.

Lemma filter_length_le {A} (f : A → bool) (l : list A) :
  (length (List.filter f l) ≤ length l)%nat.
Proof.
  induction l as [|x l IH]; simpl; [done|]. destruct (f x); simpl; lia.
Qed.

Lemma includes_ext (s k1 k2 : jsstring) :
  (Substring k1 s ↔ Substring k2 s) → includes s k1 = includes s k2.
Proof.
  intros H. unfold Substring in H. rewrite <- !includes_spec in H.
  destruct (includes s k1), (includes s k2); try done.
  - symmetry. by apply H.
  - by apply H.
Qed.

Lemma lower_unit_digit (c1 c2 : N) :
  48 ≤ c1 ≤ 57 → lower_unit c1 = lower_unit c2 → c1 = c2.
Proof.
  unfold lower_unit. intros H1.
  destruct ((65 <=? c1) && (c1 <=? 90)) eqn:E1.
  { apply andb_true_iff in E1 as [E1 _]. apply N.leb_le in E1. lia. }
  destruct ((65 <=? c2) && (c2 <=? 90)) eqn:E2; [|done].
  apply andb_true_iff in E2 as [E2 E2']. apply N.leb_le in E2, E2'. lia.
Qed.

Lemma asciiLowerCase_digits (k1 k2 : jsstring) :
  DigitsOnly k1 → asciiLowerCase k1 = asciiLowerCase k2 → k1 = k2.
Proof.
  revert k2. induction k1 as [|c1 k1 IH]; intros [|c2 k2] Hd H;
    try done.
  inversion Hd as [|? ? Hc Hd']; subst. injection H as Hc' Hk.
  f_equal; [by apply lower_unit_digit | by apply IH].
Qed.

Lemma DigitsOnly_substring (k s : jsstring) :
  Substring k s → DigitsOnly s → DigitsOnly k.
Proof.
  intros (pre & post & ->) H. unfold DigitsOnly in *.
  by apply Forall_app in H as [_ [H _]%Forall_app].
Qed.

Section KeywordFacts.
Variable toLowerCase : jsstring → jsstring.

(** X17. Successive filters commute, a filter of two lists put end to end
    is the two filtered lists put end to end, and a filter never lengthens
    a list. *)
Theorem filteredPatients_compose (ps qs : list Patient.t)
    (k1 k2 : jsstring) :
  filteredPatients toLowerCase (filteredPatients toLowerCase ps k1) k2
  = filteredPatients toLowerCase (filteredPatients toLowerCase ps k2) k1
  ∧ filteredPatients toLowerCase (ps ++ qs) k1
    = filteredPatients toLowerCase ps k1 ++ filteredPatients toLowerCase qs k1
  ∧ (length (filteredPatients toLowerCase ps k1) ≤ length ps)%nat.
Proof.
  unfold filteredPatients. split_and!.
  - apply filter_comm.
  - apply List.filter_app.
  - apply filter_length_le.
Qed.

Hypothesis toLowerCase_ascii : lowers_ascii toLowerCase.

(** X15. Extending a Basic Latin keyword can only narrow the result: when
    the keyword [kw] occurs inside the keyword [kw'], the records kept for
    [kw'] are those that the filter for [kw'] keeps among the records kept
    for [kw]. *)
Theorem filteredPatients_narrows (ps : list Patient.t) (kw kw' : jsstring) :
  Ascii kw' → Substring kw kw' →
  filteredPatients toLowerCase ps kw'
  = filteredPatients toLowerCase (filteredPatients toLowerCase ps kw) kw'
  ∧ sublist (filteredPatients toLowerCase ps kw')
            (filteredPatients toLowerCase ps kw).
Proof.
  intros Ha Hsub.
  assert (filteredPatients toLowerCase ps kw'
          = filteredPatients toLowerCase
              (filteredPatients toLowerCase ps kw) kw') as Heq.
  { unfold filteredPatients. symmetry. apply filter_filter_impl.
    intros p. rewrite !matchesKeyword_spec.
    assert (Substring (toLowerCase kw) (toLowerCase kw')) as Hl.
    { destruct Hsub as (pre & post & ->).
      unfold Ascii in Ha.
      pose proof Ha as Ha'.
      apply Forall_app in Ha' as [_ [Hk _]%Forall_app].
      rewrite (toLowerCase_ascii _ Ha), (toLowerCase_ascii _ Hk).
      unfold asciiLowerCase. rewrite !map_app. by eexists _, _. }
    intros [H|H]; [left | right]; by eapply Substring_trans. }
  split; [exact Heq|].
  rewrite Heq. apply filter_sublist.
Qed.

(** X16. On records whose identity numbers are digits only, the case of a
    Basic Latin keyword does not matter: two keywords that differ only in
    the case of their letters keep the same records. *)
Theorem filteredPatients_case_insensitive (ps : list Patient.t)
    (k1 k2 : jsstring) :
  Ascii k1 → Ascii k2 → asciiLowerCase k1 = asciiLowerCase k2 →
  Forall (λ p, DigitsOnly (Patient.nik p)) ps →
  filteredPatients toLowerCase ps k1 = filteredPatients toLowerCase ps k2.
Proof.
  intros H1 H2 Hl Hd. unfold filteredPatients.
  apply List.filter_ext_in. intros p Hp.
  rewrite Forall_forall in Hd. apply list_elem_of_In in Hp.
  specialize (Hd p Hp). unfold matchesKeyword.
  rewrite (toLowerCase_ascii _ H1), (toLowerCase_ascii _ H2), Hl.
  f_equal. apply includes_ext. split; intros Hs.
  - pose proof (DigitsOnly_substring _ _ Hs Hd) as Hk.
    by rewrite <- (asciiLowerCase_digits k1 k2 Hk Hl).
  - pose proof (DigitsOnly_substring _ _ Hs Hd) as Hk.
    by rewrite <- (asciiLowerCase_digits k2 k1 Hk (eq_sym Hl)).
Qed.
End KeywordFacts.

Lemma filteredPatients_narrows_witness :
  filteredPatients asciiLowerCase [budi; sari] (js "bud")
  = filteredPatients asciiLowerCase
      (filteredPatients asciiLowerCase [budi; sari] (js "bu")) (js "bud").
Proof.
  apply (filteredPatients_narrows asciiLowerCase asciiLowerCase_lowers).
  - unfold Ascii. vm_compute. repeat constructor.
  - by exists [], (js "d").
Defined.

Lemma filteredPatients_case_insensitive_witness :
  filteredPatients asciiLowerCase [budi; sari] (js "BU")
  = filteredPatients asciiLowerCase [budi; sari] (js "bu").
Proof.
  apply (filteredPatients_case_insensitive asciiLowerCase
           asciiLowerCase_lowers).
  - unfold Ascii. vm_compute. repeat constructor.
  - unfold Ascii. vm_compute. repeat constructor.
  - reflexivity.
  - repeat constructor; unfold DigitsOnly; vm_compute;
      repeat constructor; discriminate.
Defined.

(** ** A run of input events *)

Lemma handleInputChange_formData (name : FieldName) (value : jsstring)
    (w : World) :
  let w' := (dispatch (λ r, handleInputChange r name value) w).2 in
  (dispatch (λ r, handleInputChange r name value) w).1 = Normal tt
  ∧ formData (ui w') = set_field name value (formData (ui w))
  ∧ calls w' = calls w
  ∧ editingId (ui w') = editingId (ui w).
Proof.
  unfold dispatch, handleInputChange, bind, updateFormData, modify.
  cbn [fst snd ui calls].
  by destruct (truthy (error_of (errors (ui w)) (field_key name))).
Qed.

(** X18. After any run of input events the draft holds, in each field, the
    value typed last in that field, or its former value when nothing was
    typed there; the run issues no request, never fails and leaves the
    identifier being edited alone. *)
Theorem typing_outcome (events : list (FieldName * jsstring)) (w : World) :
  let w' := after (typing events) w in
  (typing events w).1 = Normal tt
  ∧ calls w' = calls w
  ∧ editingId (ui w') = editingId (ui w)
  ∧ ∀ name, get_field name (formData (ui w'))
            = default (get_field name (formData (ui w)))
                (last_typed name events).
Proof.
  revert w. induction events as [|[g v] rest IH]; intros w w'; subst w'.
  - unfold after. simpl. by split_and!.
  - unfold after in *. cbn [typing]. unfold bind.
    destruct (handleInputChange_formData g v w) as (Hn & Hf & Hc & He).
    destruct (dispatch (λ r, handleInputChange r g v) w) as [c w1] eqn:Hd.
    cbn [fst snd] in *. subst c.
    destruct (IH w1) as (IHn & IHc & IHe & IHf).
    split_and!.
    + exact IHn.
    + by rewrite IHc.
    + by rewrite IHe.
    + intros name. rewrite IHf, Hf. cbn [last_typed].
      destruct (last_typed name rest) as [v'|]; [done|]. simpl.
      destruct (decide (g = name)) as [->|Hne]; simpl.
      * apply get_set_field.
      * by apply get_set_field_ne.
Qed.

(** ** The first load and the list area *)

Lemma imap_numbered {A} (n : nat) (l : list A) :
  imap (λ i x, (n + S i, x)%nat) l = zip (seq (S n) (length l)) l.
Proof.
  revert n. induction l as [|x l IH]; intros n; [done|].
  rewrite imap_cons. simpl. f_equal; [f_equal; lia|].
  rewrite <- (IH (S n)). apply imap_ext. intros i y _. simpl.
  f_equal. lia.
Qed.

Lemma filteredPatients_nil_keyword (toLowerCase : jsstring → jsstring)
    (ps : list Patient.t) :
  lowers_ascii toLowerCase → filteredPatients toLowerCase ps [] = ps.
Proof.
  intros H. unfold filteredPatients.
  induction ps as [|p l IH]; simpl; [done|].
  unfold matchesKeyword at 1.
  by rewrite (toLowerCase_nil _ H), includes_nil, IH.
Qed.

Section FirstLoad.
Variable toLowerCase : jsstring → jsstring.
Hypothesis toLowerCase_ascii : lowers_ascii toLowerCase.

(** X19. Before its first fetch completes the page shows the spinner.  The
    first render then issues exactly one request, the list fetch.  When the
    service answers with records, the list area shows all of them, in the
    order received, numbered from 1, and no error banner; when it answers
    with none, or fails, the list area shows the "no data" notice, with the
    fetch-failure banner in the latter case. *)
Theorem first_load (svc : Service) :
  let w0 := mkWorld initialState [] in
  let w' := after (mount svc) w0 in
  listView toLowerCase (ui w0) = Spinner
  ∧ calls w' = [GET_patients]
  ∧ (∀ data, on_getAll svc [] = Fulfilled data →
       errorMessage (ui w') = []
       ∧ listView toLowerCase (ui w')
         = match data with
           | [] => NoData
           | _ => Table (zip (seq 1 (length data)) data)
           end)
  ∧ (∀ e, on_getAll svc [] = Rejected e →
       listView toLowerCase (ui w') = NoData
       ∧ errorMessage (ui w')
         = js "Gagal mengambil data pasien. Pastikan backend sudah berjalan.").
Proof.
  intros w0 w'. subst w' w0. unfold after, mount. split_and!.
  - reflexivity.
  - apply (fetchPatients_calls svc (mkWorld initialState [])).
  - intros data H.
    rewrite (fetchPatients_fulfilled svc (mkWorld initialState []) data H).
    split; [reflexivity|]. unfold listView. cbn [snd ui loading patients
      searchKeyword initialState].
    rewrite (filteredPatients_nil_keyword _ _ toLowerCase_ascii).
    destruct data as [|p l]; [done|]. f_equal.
    apply (imap_numbered 0).
  - intros e H.
    by rewrite (fetchPatients_rejected svc (mkWorld initialState []) e H).
Qed.
End FirstLoad.

Lemma first_load_witness :
  listView asciiLowerCase
    (ui (after (mount (acceptingService [budi; sari]))
           (mkWorld initialState [])))
  = Table [(1%nat, budi); (2%nat, sari)].
Proof.
  pose proof (first_load asciiLowerCase asciiLowerCase_lowers
                (acceptingService [budi; sari])) as H.
  cbv zeta in H. destruct H as (_ & _ & H & _).
  destruct (H [budi; sari] eq_refl) as [_ Hv]. exact Hv.
Defined.
